(** * Contact-form relay (cdk/lambda/contact-form/index.js)

    A shallow embedding of the Lambda handler and of the fragment of the
    JavaScript runtime it relies on (truthiness, property reads, string
    conversion, relational comparison, [JSON.parse], [JSON.stringify],
    [parseFloat]), followed by the properties of the handler.

    Console logging is left out: it has no effect on the response, on the
    credential cache or on the calls made to the three collaborators. *)

From Stdlib Require Import List ZArith NArith Bool String Ascii Lia Permutation.
From Stdlib Require Import PrimFloat FloatOps SpecFloat FloatAxioms.
Import ListNotations.

Local Open Scope Z_scope.
#[local] Set Warnings "-inexact-float".

(* ================================================================= *)
(** ** JavaScript strings *)

(** A JavaScript string is a sequence of 16-bit code units. *)
Definition code_unit := N.
Definition jsstring := list N.

(** A string is well formed when each of its elements is a 16-bit value. *)
Definition wf_unit (c : N) : Prop := (c < 65536)%N.
Definition wf_string (s : jsstring) : Prop := Forall wf_unit s.

(** ASCII literals of the source, as code units. *)
Definition js (s : string) : jsstring := map N_of_ascii (list_ascii_of_string s).

Fixpoint str_eqb (a b : jsstring) : bool :=
  match a, b with
  | [], [] => true
  | x :: a', y :: b' => N.eqb x y && str_eqb a' b'
  | _, _ => false
  end.

(** [prefix_strip p s]: the rest of [s] after the prefix [p], if [s] starts with [p]. *)
Fixpoint prefix_strip (p s : jsstring) : option jsstring :=
  match p, s with
  | [], _ => Some s
  | x :: p', y :: s' => if N.eqb x y then prefix_strip p' s' else None
  | _ :: _, [] => None
  end.

(** [s] occurs in [t] as a contiguous run of code units. *)
Definition contains (t s : jsstring) : Prop := exists pre post, t = pre ++ s ++ post.

Definition is_digit (c : N) : bool := (48 <=? c)%N && (c <=? 57)%N.

Fixpoint span_digits (s : jsstring) : jsstring * jsstring :=
  match s with
  | c :: s' => if is_digit c then let '(d, r) := span_digits s' in (c :: d, r) else ([], s)
  | [] => ([], [])
  end.

(** Value of a run of decimal digits, most significant first. *)
Definition digits_value (d : jsstring) : Z :=
  fold_left (fun acc c => 10 * acc + (Z.of_N c - 48)) d 0.

Fixpoint Z_digits_aux (fuel : nat) (n : Z) (acc : jsstring) : jsstring :=
  match fuel with
  | O => acc
  | S f =>
      let acc' := (48 + Z.to_N (n mod 10))%N :: acc in
      if n <? 10 then acc' else Z_digits_aux f (n / 10) acc'
  end.

(** Decimal digits of a non-negative integer. *)
Definition Z_digits (n : Z) : jsstring := Z_digits_aux (S (Z.to_nat (Z.log2 n))) n [].

(* ================================================================= *)
(** ** JavaScript numbers: IEEE 754 binary64 *)

(** The Number nearest to the rational [p / q] ([0 <= p], [0 < q]), ties to
    even: the quotient is computed with at least 55 significant bits and the
    position of the remainder is handed to the rounding of [SpecFloat]. *)
Definition round_ratio (neg : bool) (p q : Z) : spec_float :=
  if p =? 0 then S754_zero neg
  else
    let k := Z.max 0 (56 + Z.log2 q - Z.log2 p) in
    let '(m, r) := Z.div_eucl (Z.shiftl p k) q in
    let loc := if r =? 0 then loc_Exact else loc_Inexact (Z.compare (2 * r) q) in
    binary_round_aux prec emax neg m (- k) loc.

(** The Number nearest to [m * 10 ^ e10]. *)
Definition decimal_to_SF (neg : bool) (m e10 : Z) : spec_float :=
  if 0 <=? e10 then round_ratio neg (m * 10 ^ e10) 1
  else round_ratio neg m (10 ^ (- e10)).

Definition decimal_to_Number (neg : bool) (m e10 : Z) : float :=
  SF2Prim (decimal_to_SF neg m e10).

Definition NaN : float := nan.
Definition is_NaN (x : float) : bool := negb (PrimFloat.eqb x x).

(** [x < y] on Numbers; [false] when either is NaN. *)
Definition Number_lessThan (x y : float) : bool :=
  match PrimFloat.compare x y with FLt => true | _ => false end.

(** [x >= y] on Numbers; [false] when either is NaN. *)
Definition Number_atLeast (x y : float) : bool :=
  match PrimFloat.compare x y with FEq | FGt => true | _ => false end.

(** *** Number::toString *)

(** For [x = P / Q > 0], the integer [n] with [10^(n-1) <= x < 10^n]. *)
Fixpoint small_exponent (fuel : nat) (P Q : Z) (j : Z) : Z :=
  match fuel with
  | O => 1 - j
  | S f => if Q <=? P * 10 then 1 - j else small_exponent f (P * 10) Q (j + 1)
  end.

Definition decimal_exponent (P Q : Z) : Z :=
  if Q <=? P then Z.of_nat (List.length (Z_digits (P / Q)))
  else small_exponent (S (Z.to_nat (Z.log2 Q))) P Q 1.

(** The decimal with [k] significant digits nearest to [x = P / Q] that
    converts back to [x], if there is one: the pair [(s, n)] stands for
    [s * 10 ^ (n - k)] with [10^(k-1) <= s < 10^k]. *)
Definition candidate (x : float) (P Q n k : Z) : option (Z * Z) :=
  let t := n - k in
  let A := if t <? 0 then P * 10 ^ (- t) else P in
  let B := if t <? 0 then Q else Q * 10 ^ t in
  let lo := A / B in
  let r := A mod B in
  let hi := lo + 1 in
  let ok c := PrimFloat.eqb (decimal_to_Number false c t) x in
  let norm c := if c =? 10 ^ k then (10 ^ (k - 1), n + 1) else (c, n) in
  match ok lo, ok hi with
  | true, true =>
      match Z.compare (2 * r) B with
      | Lt => Some (norm lo)
      | Gt => Some (norm hi)
      | Eq => Some (norm (if Z.even lo then lo else hi))
      end
  | true, false => Some (norm lo)
  | false, true => Some (norm hi)
  | false, false => None
  end.

Fixpoint shortest (fuel : nat) (x : float) (P Q n k : Z) : Z * Z * Z :=
  match fuel with
  | O => (P / Q, n, k)
  | S f =>
      match candidate x P Q n k with
      | Some (s, n') => (s, n', k)
      | None => shortest f x P Q n (k + 1)
      end
  end.

Definition zeros (n : Z) : jsstring := repeat 48%N (Z.to_nat n).

(** Steps 5 to 10 of Number::toString: the digits of [s] ([k] of them) placed
    around the decimal point given by [n]. *)
Definition format_decimal (s n k : Z) : jsstring :=
  let d := Z_digits s in
  if (k <=? n) && (n <=? 21) then d ++ zeros (n - k)
  else if (0 <? n) && (n <=? 21) then
    firstn (Z.to_nat n) d ++ js "." ++ skipn (Z.to_nat n) d
  else if (-6 <? n) && (n <=? 0) then js "0." ++ zeros (- n) ++ d
  else
    let e := n - 1 in
    let sign := if e <? 0 then js "-" else js "+" in
    let mant := if k =? 1 then d else firstn 1 d ++ js "." ++ skipn 1 d in
    mant ++ js "e" ++ sign ++ Z_digits (Z.abs e).

Definition NumberToString (x : float) : jsstring :=
  match Prim2SF x with
  | S754_nan => js "NaN"
  | S754_zero _ => js "0"
  | S754_infinity s => if s then js "-Infinity" else js "Infinity"
  | S754_finite s m e =>
      let P := if e <? 0 then Zpos m else Zpos m * 2 ^ e in
      let Q := if e <? 0 then 2 ^ (- e) else 1 in
      let '(d, n, k) := shortest 17 (abs x) P Q (decimal_exponent P Q) 1 in
      (if s then js "-" else []) ++ format_decimal d n k
  end.

(** *** StringToNumber and parseFloat *)

(** White space and line terminators (StrWhiteSpaceChar). *)
Definition is_StrWhiteSpaceChar (c : N) : bool :=
  existsb (N.eqb c)
    [9; 10; 11; 12; 13; 32; 160; 5760; 8232; 8233; 8239; 8287; 12288; 65279]%N
  || ((8192 <=? c) && (c <=? 8202))%N.

Fixpoint trim_start (s : jsstring) : jsstring :=
  match s with
  | c :: s' => if is_StrWhiteSpaceChar c then trim_start s' else s
  | [] => []
  end.

Definition trim (s : jsstring) : jsstring := rev (trim_start (rev (trim_start s))).

(** An optional sign: [true] for a minus. *)
Definition scan_sign (s : jsstring) : bool * jsstring :=
  match s with
  | 43%N :: r => (false, r)
  | 45%N :: r => (true, r)
  | _ => (false, s)
  end.

(** ExponentPart, taken only when complete: [e] or [E], a sign, digits. *)
Definition scan_exponent (s : jsstring) : Z * jsstring :=
  match s with
  | c :: s1 =>
      if (c =? 101)%N || (c =? 69)%N then
        let '(neg, s2) := scan_sign s1 in
        let '(d, r) := span_digits s2 in
        match d with
        | [] => (0, s)
        | _ => ((if neg then - digits_value d else digits_value d), r)
        end
      else (0, s)
  | [] => (0, s)
  end.

(** The longest prefix that is an unsigned decimal literal other than
    [Infinity]: its digits as an integer, its power of ten, and the rest. *)
Definition scan_decimal (s : jsstring) : option (Z * Z * jsstring) :=
  let '(d1, r1) := span_digits s in
  match r1 with
  | 46%N :: r1' =>
      let '(d2, r2) := span_digits r1' in
      match d1, d2 with
      | [], [] => None
      | _, _ =>
          let '(e, r3) := scan_exponent r2 in
          Some (digits_value (d1 ++ d2), e - Z.of_nat (List.length d2), r3)
      end
  | _ =>
      match d1 with
      | [] => None
      | _ => let '(e, r3) := scan_exponent r1 in Some (digits_value d1, e, r3)
      end
  end.

(** The longest prefix that is a StrDecimalLiteral. *)
Definition scan_StrDecimalLiteral (s : jsstring) : option (float * jsstring) :=
  let '(neg, s1) := scan_sign s in
  match prefix_strip (js "Infinity") s1 with
  | Some r => Some (if neg then neg_infinity else infinity, r)
  | None =>
      match scan_decimal s1 with
      | Some (m, e, r) => Some (decimal_to_Number neg m e, r)
      | None => None
      end
  end.

Definition parseFloat (s : jsstring) : float :=
  match scan_StrDecimalLiteral (trim_start s) with
  | Some (x, _) => x
  | None => NaN
  end.

Definition digit_value (c : N) : option Z :=
  if is_digit c then Some (Z.of_N c - 48)
  else if ((97 <=? c) && (c <=? 102))%N then Some (Z.of_N c - 87)
  else if ((65 <=? c) && (c <=? 70))%N then Some (Z.of_N c - 55)
  else None.

Fixpoint radix_value (radix : Z) (s : jsstring) (acc : Z) : option Z :=
  match s with
  | [] => Some acc
  | c :: s' =>
      match digit_value c with
      | Some d => if d <? radix then radix_value radix s' (radix * acc + d) else None
      | None => None
      end
  end.

(** NonDecimalIntegerLiteral: [0x], [0o] or [0b] and at least one digit. *)
Definition scan_NonDecimal (s : jsstring) : option (option Z) :=
  match s with
  | 48%N :: c :: d =>
      let radix :=
        if (c =? 120)%N || (c =? 88)%N then Some 16
        else if (c =? 111)%N || (c =? 79)%N then Some 8
        else if (c =? 98)%N || (c =? 66)%N then Some 2
        else None in
      match radix, d with
      | Some r, _ :: _ => Some (radix_value r d 0)
      | Some r, [] => Some None
      | None, _ => None
      end
  | _ => None
  end.

Definition StringToNumber (s : jsstring) : float :=
  match trim s with
  | [] => zero
  | t =>
      match scan_NonDecimal t with
      | Some (Some n) => SF2Prim (round_ratio false n 1)
      | Some None => NaN
      | None =>
          match scan_StrDecimalLiteral t with
          | Some (x, []) => x
          | _ => NaN
          end
      end
  end.

(* ================================================================= *)
(** ** JavaScript values built from JSON data *)

(** An object is the list of its own properties in property order; keys are
    unique in the objects that [JSON.parse] and the object literals of the
    source build. *)
#[local] Set Warnings "-register-all".
Inductive value : Type :=
| VUndefined
| VNull
| VBool (b : bool)
| VNum (x : float)
| VStr (s : jsstring)
| VArr (elems : list value)
| VObj (props : list (jsstring * value)).

Inductive exn : Type :=
| TypeError
| SyntaxError
| ServiceFailure (name : jsstring).

(** The outcome of evaluating a statement or of awaiting a promise. *)
Inductive completion (A : Type) : Type :=
| Normal (a : A)
| Throw (e : exn).
Arguments Normal {A} a.
Arguments Throw {A} e.

Definition nullish (v : value) : bool :=
  match v with VUndefined | VNull => true | _ => false end.

(** ToBoolean. *)
Definition truthy (v : value) : bool :=
  match v with
  | VUndefined | VNull => false
  | VBool b => b
  | VNum x => negb (PrimFloat.eqb x zero) && negb (is_NaN x)
  | VStr s => match s with [] => false | _ => true end
  | VArr _ | VObj _ => true
  end.

Fixpoint lookup (k : jsstring) (props : list (jsstring * value)) : value :=
  match props with
  | [] => VUndefined
  | (k', v) :: rest => if str_eqb k k' then v else lookup k rest
  end.

(** [v.k] for the property names the handler reads. None of them is an array
    index, [length] or a member of a built-in prototype, so the read yields
    [undefined] on primitives and arrays and throws on [undefined] and [null]. *)
Definition Get (v : value) (k : jsstring) : completion value :=
  match v with
  | VUndefined | VNull => Throw TypeError
  | VObj props => Normal (lookup k props)
  | _ => Normal VUndefined
  end.

(** [v?.k]. *)
Definition OptGet (v : value) (k : jsstring) : value :=
  match v with
  | VObj props => lookup k props
  | _ => VUndefined
  end.

(** [a || b]. *)
Definition js_or (a b : value) : value := if truthy a then a else b.

(** [v === true]. *)
Definition is_true (v : value) : bool :=
  match v with VBool true => true | _ => false end.

(** [v === s] for a string [s]. *)
Definition strict_eq_string (v : value) (s : jsstring) : bool :=
  match v with VStr t => str_eqb t s | _ => false end.

Fixpoint join (sep : jsstring) (parts : list jsstring) : jsstring :=
  match parts with
  | [] => []
  | [p] => p
  | p :: rest => p ++ sep ++ join sep rest
  end.

(** ToString; an array is joined as [Array.prototype.toString] does. *)
Fixpoint ToString (v : value) : jsstring :=
  match v with
  | VUndefined => js "undefined"
  | VNull => js "null"
  | VBool b => if b then js "true" else js "false"
  | VNum x => NumberToString x
  | VStr s => s
  | VArr elems =>
      join (js ",") (map (fun e => if nullish e then [] else ToString e) elems)
  | VObj _ => js "[object Object]"
  end.

(** ToNumber; arrays and objects go through their string conversion. *)
Definition ToNumber (v : value) : float :=
  match v with
  | VUndefined => NaN
  | VNull => zero
  | VBool b => if b then one else zero
  | VNum x => x
  | VStr s => StringToNumber s
  | VArr _ | VObj _ => StringToNumber (ToString v)
  end.

(** [v < t] and [v >= t] where [t] is a Number. *)
Definition js_lt (v : value) (t : float) : bool := Number_lessThan (ToNumber v) t.
Definition js_ge (v : value) (t : float) : bool := Number_atLeast (ToNumber v) t.

(* ================================================================= *)
(** ** JSON.parse *)

Definition is_json_ws (c : N) : bool :=
  (c =? 32)%N || (c =? 9)%N || (c =? 10)%N || (c =? 13)%N.

Fixpoint skip_ws (s : jsstring) : jsstring :=
  match s with
  | c :: s' => if is_json_ws c then skip_ws s' else s
  | [] => []
  end.

Definition hex4 (a b c d : N) : option N :=
  match digit_value a, digit_value b, digit_value c, digit_value d with
  | Some x, Some y, Some z, Some w => Some (Z.to_N (((x * 16 + y) * 16 + z) * 16 + w))
  | _, _, _, _ => None
  end.

(** The code unit written by a one-letter escape. *)
Definition escape_char (e : N) : option N :=
  if (e =? 34)%N then Some 34%N
  else if (e =? 92)%N then Some 92%N
  else if (e =? 47)%N then Some 47%N
  else if (e =? 98)%N then Some 8%N
  else if (e =? 102)%N then Some 12%N
  else if (e =? 110)%N then Some 10%N
  else if (e =? 114)%N then Some 13%N
  else if (e =? 116)%N then Some 9%N
  else None.

Definition cons_fst (c : N) (r : option (jsstring * jsstring)) : option (jsstring * jsstring) :=
  match r with
  | Some (t, rest) => Some (c :: t, rest)
  | None => None
  end.

(** A string literal after its opening quote: its code units and the input
    after the closing quote. *)
Fixpoint parse_string_body (s : jsstring) : option (jsstring * jsstring) :=
  match s with
  | [] => None
  | c :: r =>
      if (c =? 34)%N then Some ([], r)
      else if (c =? 92)%N then
        match r with
        | [] => None
        | e :: r1 =>
            if (e =? 117)%N then
              match r1 with
              | a :: b :: c' :: d :: r2 =>
                  match hex4 a b c' d with
                  | Some u => cons_fst u (parse_string_body r2)
                  | None => None
                  end
              | _ => None
              end
            else
              match escape_char e with
              | Some u => cons_fst u (parse_string_body r1)
              | None => None
              end
        end
      else if (c <? 32)%N then None
      else cons_fst c (parse_string_body r)
  end.

(** A JSON number: [-]? int frac? exp? with no leading zero. *)
Definition parse_number (s : jsstring) : option (float * jsstring) :=
  let '(neg, s1) := match s with 45%N :: r => (true, r) | _ => (false, s) end in
  let '(d1, r1) := span_digits s1 in
  match d1 with
  | [] => None
  | 48%N :: _ :: _ => None
  | _ =>
      let frac :=
        match r1 with
        | 46%N :: r1' =>
            let '(d2, r2) := span_digits r1' in
            match d2 with [] => None | _ => Some (d2, r2) end
        | _ => Some ([], r1)
        end in
      match frac with
      | None => None
      | Some (d2, r2) =>
          let m := digits_value (d1 ++ d2) in
          let shift := Z.of_nat (List.length d2) in
          match r2 with
          | c :: r3 =>
              if (c =? 101)%N || (c =? 69)%N then
                let '(eneg, r4) := scan_sign r3 in
                let '(d3, r5) := span_digits r4 in
                match d3 with
                | [] => None
                | _ =>
                    let e := if eneg then - digits_value d3 else digits_value d3 in
                    Some (decimal_to_Number neg m (e - shift), r5)
                end
              else Some (decimal_to_Number neg m (- shift), r2)
          | [] => Some (decimal_to_Number neg m (- shift), r2)
          end
      end
  end.

(** An array index: the canonical decimal form of an integer below [2^32 - 1]. *)
Definition array_index (k : jsstring) : option Z :=
  match k with
  | [] => None
  | c :: rest =>
      if forallb is_digit k && (negb (c =? 48)%N || match rest with [] => true | _ => false end)
      then let i := digits_value k in if i <? 4294967295 then Some i else None
      else None
  end.

Fixpoint has_key (k : jsstring) (props : list (jsstring * value)) : bool :=
  match props with
  | [] => false
  | (k', _) :: rest => str_eqb k k' || has_key k rest
  end.

Fixpoint replace_value (k : jsstring) (v : value) (props : list (jsstring * value))
  : list (jsstring * value) :=
  match props with
  | [] => []
  | (k', v') :: rest =>
      if str_eqb k k' then (k', v) :: rest else (k', v') :: replace_value k v rest
  end.

Fixpoint insert_index (i : Z) (k : jsstring) (v : value) (props : list (jsstring * value))
  : list (jsstring * value) :=
  match props with
  | [] => [(k, v)]
  | (k', v') :: rest =>
      match array_index k' with
      | Some j => if j <? i then (k', v') :: insert_index i k v rest
                  else (k, v) :: props
      | None => (k, v) :: props
      end
  end.

(** CreateDataProperty on an ordinary object: an existing property keeps its
    place; a new array index goes among the indices in ascending order, any
    other new key goes last. *)
Definition CreateDataProperty (props : list (jsstring * value)) (k : jsstring) (v : value)
  : list (jsstring * value) :=
  if has_key k props then replace_value k v props
  else
    match array_index k with
    | Some i => insert_index i k v props
    | None => props ++ [(k, v)]
    end.

(** The parser. [fuel] bounds the number of values, elements and members
    opened: each of them is entered after a character has been consumed, so
    a fuel above the length of the text is never exhausted. *)
Fixpoint parse_value (fuel : nat) (s : jsstring) : option (value * jsstring) :=
  match fuel with
  | O => None
  | S f =>
      match skip_ws s with
      | [] => None
      | c :: r =>
          if (c =? 34)%N then
            match parse_string_body r with
            | Some (t, rest) => Some (VStr t, rest)
            | None => None
            end
          else if (c =? 91)%N then
            match skip_ws r with
            | 93%N :: rest => Some (VArr [], rest)
            | _ =>
                match parse_value f r with
                | Some (v, rest) => parse_elements f [v] rest
                | None => None
                end
            end
          else if (c =? 123)%N then
            match skip_ws r with
            | 125%N :: rest => Some (VObj [], rest)
            | r' => parse_member f [] r'
            end
          else if (c =? 116)%N then
            option_map (fun rest => (VBool true, rest)) (prefix_strip (js "true") (c :: r))
          else if (c =? 102)%N then
            option_map (fun rest => (VBool false, rest)) (prefix_strip (js "false") (c :: r))
          else if (c =? 110)%N then
            option_map (fun rest => (VNull, rest)) (prefix_strip (js "null") (c :: r))
          else
            option_map (fun xr => (VNum (fst xr), snd xr)) (parse_number (c :: r))
      end
  end

(** After an element: [,] and one more element, or the closing bracket. *)
with parse_elements (fuel : nat) (acc : list value) (s : jsstring)
  : option (value * jsstring) :=
  match fuel with
  | O => None
  | S f =>
      match skip_ws s with
      | c :: r =>
          if (c =? 93)%N then Some (VArr (rev acc), r)
          else if (c =? 44)%N then
            match parse_value f r with
            | Some (v, rest) => parse_elements f (v :: acc) rest
            | None => None
            end
          else None
      | [] => None
      end
  end

(** One member [key : value] at the head of [s] (white space skipped), then
    [,] and one more member, or the closing brace. *)
with parse_member (fuel : nat) (acc : list (jsstring * value)) (s : jsstring)
  : option (value * jsstring) :=
  match fuel with
  | O => None
  | S f =>
      match s with
      | 34%N :: r =>
          match parse_string_body r with
          | Some (k, r1) =>
              match skip_ws r1 with
              | 58%N :: r2 =>
                  match parse_value f r2 with
                  | Some (v, r3) =>
                      let acc' := CreateDataProperty acc k v in
                      match skip_ws r3 with
                      | c :: r4 =>
                          if (c =? 125)%N then Some (VObj acc', r4)
                          else if (c =? 44)%N then parse_member f acc' (skip_ws r4)
                          else None
                      | [] => None
                      end
                  | None => None
                  end
              | _ => None
              end
          | None => None
          end
      | _ => None
      end
  end.

(** [JSON.parse(text)]: one value between optional white space, or a SyntaxError. *)
Definition JSON_parse (text : jsstring) : completion value :=
  match parse_value (S (List.length text)) text with
  | Some (v, rest) =>
      match skip_ws rest with
      | [] => Normal v
      | _ => Throw SyntaxError
      end
  | None => Throw SyntaxError
  end.

(* ================================================================= *)
(** ** JSON.stringify *)

Definition hex_digit (d : N) : N := if (d <? 10)%N then (48 + d)%N else (87 + d)%N.

(** [\uXXXX] with lower-case hexadecimal digits. *)
Definition unicode_escape (c : N) : jsstring :=
  [92; 117; hex_digit (c / 4096); hex_digit ((c / 256) mod 16);
   hex_digit ((c / 16) mod 16); hex_digit (c mod 16)]%N.

Definition is_lead_surrogate (c : N) : bool := (55296 <=? c)%N && (c <=? 56319)%N.
Definition is_trail_surrogate (c : N) : bool := (56320 <=? c)%N && (c <=? 57343)%N.

(** A code unit that is not part of a surrogate pair, as QuoteJSONString
    writes it. *)
Definition quote_unit (c : N) : jsstring :=
  if (c =? 8)%N then js "\b"
  else if (c =? 9)%N then js "\t"
  else if (c =? 10)%N then js "\n"
  else if (c =? 12)%N then js "\f"
  else if (c =? 13)%N then js "\r"
  else if (c =? 34)%N then [92; 34]%N
  else if (c =? 92)%N then [92; 92]%N
  else if (c <? 32)%N || is_lead_surrogate c || is_trail_surrogate c then unicode_escape c
  else [c].

Fixpoint quote_body (s : jsstring) : jsstring :=
  match s with
  | [] => []
  | c :: r =>
      if is_lead_surrogate c then
        match r with
        | d :: r' =>
            if is_trail_surrogate d then c :: d :: quote_body r'
            else unicode_escape c ++ quote_body r
        | [] => unicode_escape c
        end
      else quote_unit c ++ quote_body r
  end.

Definition QuoteJSONString (s : jsstring) : jsstring := 34%N :: quote_body s ++ [34%N].

Definition is_finite (x : float) : bool :=
  match Prim2SF x with
  | S754_nan | S754_infinity _ => false
  | _ => true
  end.

(** SerializeJSONProperty without indentation: [None] stands for [undefined]. *)
Fixpoint SerializeJSONProperty (v : value) : option jsstring :=
  match v with
  | VUndefined => None
  | VNull => Some (js "null")
  | VBool b => Some (if b then js "true" else js "false")
  | VNum x => Some (if is_finite x then NumberToString x else js "null")
  | VStr s => Some (QuoteJSONString s)
  | VArr elems =>
      let item e := match SerializeJSONProperty e with Some t => t | None => js "null" end in
      Some (js "[" ++ join (js ",") (map item elems) ++ js "]")
  | VObj props =>
      let members :=
        (fix go (l : list (jsstring * value)) : list jsstring :=
           match l with
           | [] => []
           | (k, e) :: rest =>
               match SerializeJSONProperty e with
               | Some t => (QuoteJSONString k ++ js ":" ++ t) :: go rest
               | None => go rest
               end
           end) props in
      Some (js "{" ++ join (js ",") members ++ js "}")
  end.

(** [JSON.stringify(v)] for a value that is not [undefined]. *)
Definition JSON_stringify (v : value) : jsstring :=
  match SerializeJSONProperty v with
  | Some t => t
  | None => js "undefined"
  end.

(** [Buffer.byteLength(s)]: the length of the UTF-8 encoding of [s], an
    unpaired surrogate being encoded as U+FFFD. *)
Fixpoint Buffer_byteLength (s : jsstring) : Z :=
  match s with
  | [] => 0
  | c :: r =>
      if (c <? 128)%N then 1 + Buffer_byteLength r
      else if (c <? 2048)%N then 2 + Buffer_byteLength r
      else if is_lead_surrogate c then
        match r with
        | d :: r' => if is_trail_surrogate d then 4 + Buffer_byteLength r'
                     else 3 + Buffer_byteLength r
        | [] => 3
        end
      else 3 + Buffer_byteLength r
  end.

(* ================================================================= *)
(** ** The module-level state and the collaborators *)

(** Lines 9-17: the configuration read from [process.env] when the module is
    loaded. A variable that is not set reads as [undefined]. *)
Record Config : Type := {
  SENDER : value;
  RECEIVER : value;
  SUBJECT : value;
  RECAPTCHA_API_KEY_SECRET_NAME : value;
  RECAPTCHA_PROJECT_ID : value;
  RECAPTCHA_SITE_KEY : value;
  RECAPTCHA_SCORE_THRESHOLD : float
}.

Definition process_env := jsstring -> option jsstring.

Definition env_get (env : process_env) (name : string) : value :=
  match env (js name) with
  | Some s => VStr s
  | None => VUndefined
  end.

Definition load_config (env : process_env) : Config := {|
  SENDER := env_get env "SENDER_EMAIL";
  RECEIVER := env_get env "RECEIVER_EMAIL";
  SUBJECT := js_or (env_get env "EMAIL_SUBJECT") (VStr (js "Contact Form Submission"));
  RECAPTCHA_API_KEY_SECRET_NAME := env_get env "RECAPTCHA_API_KEY_SECRET_NAME";
  RECAPTCHA_PROJECT_ID := env_get env "RECAPTCHA_PROJECT_ID";
  RECAPTCHA_SITE_KEY := env_get env "RECAPTCHA_SITE_KEY";
  RECAPTCHA_SCORE_THRESHOLD :=
    parseFloat (ToString (js_or (env_get env "RECAPTCHA_SCORE_THRESHOLD") (VStr (js "0.5"))))
|}.

(** The options of the HTTPS request of [verifyRecaptcha]. *)
Record RequestOptions : Type := {
  hostname : jsstring;
  port : Z;
  path : jsstring;
  method : jsstring;
  header_Content_Type : jsstring;
  header_Content_Length : Z
}.

(** The parameters of the [SendEmailCommand] of [sendEmail]. *)
Record SendEmailParams : Type := {
  ToAddresses : list value;
  Body_Text_Data : jsstring;
  Body_Text_Charset : jsstring;
  Subject_Data : value;
  Subject_Charset : jsstring;
  Source : value
}.

(** A call made to a collaborator. *)
Inductive call : Type :=
| SecretsManagerSend (SecretId : value)
| HttpsRequest (options : RequestOptions) (requestBody : jsstring)
| SesSend (params : SendEmailParams).

(** What the collaborators answer during one invocation: the secret store
    returns a response object or fails; the verification service delivers
    the text of a response body or the request emits [error]; the email
    service accepts the message or fails. *)
Record World : Type := {
  secretsManager_send : value -> completion value;
  https_request : RequestOptions -> jsstring -> completion jsstring;
  ses_send : SendEmailParams -> completion unit
}.

(** The result of a computation started with some [cachedApiKey]: how it
    completed, the [cachedApiKey] it leaves, the calls it made in order. *)
Record Outcome (A : Type) : Type := {
  result : completion A;
  cache : value;
  calls : list call
}.
Arguments result {A} o.
Arguments cache {A} o.
Arguments calls {A} o.

Definition M (A : Type) : Type := value -> Outcome A.

Definition ret {A : Type} (a : A) : M A :=
  fun c => {| result := Normal a; cache := c; calls := [] |}.

Definition lift {A : Type} (r : completion A) : M A :=
  fun c => {| result := r; cache := c; calls := [] |}.

Definition bind {A B : Type} (m : M A) (k : A -> M B) : M B :=
  fun c =>
    let o := m c in
    match result o with
    | Normal a =>
        let o' := k a (cache o) in
        {| result := result o'; cache := cache o'; calls := calls o ++ calls o' |}
    | Throw e => {| result := Throw e; cache := cache o; calls := calls o |}
    end.

(** [try { m } catch (error) { h error }]. *)
Definition try_catch {A : Type} (m : M A) (h : exn -> M A) : M A :=
  fun c =>
    let o := m c in
    match result o with
    | Normal a => o
    | Throw e =>
        let o' := h e (cache o) in
        {| result := result o'; cache := cache o'; calls := calls o ++ calls o' |}
    end.

(** Awaiting a call to a collaborator. *)
Definition perform {A : Type} (ev : call) (reply : completion A) : M A :=
  fun c => {| result := reply; cache := c; calls := [ev] |}.

Definition read_cache : M value :=
  fun c => {| result := Normal c; cache := c; calls := [] |}.

Definition write_cache (v : value) : M unit :=
  fun _ => {| result := Normal tt; cache := v; calls := [] |}.

Declare Scope js_scope.
Delimit Scope js_scope with js.
Notation "x <- m ;; k" := (bind m (fun x => k))
  (at level 61, m at next level, right associativity) : js_scope.
Notation "m ;;; k" := (bind m (fun _ => k))
  (at level 61, right associativity) : js_scope.

(** Sequencing of completions. *)
Definition cbind {A B : Type} (r : completion A) (k : A -> completion B) : completion B :=
  match r with
  | Normal a => k a
  | Throw e => Throw e
  end.
Notation "x <~ r ;; k" := (cbind r (fun x => k))
  (at level 61, r at next level, right associativity) : js_scope.

Local Open Scope js_scope.

(** Line 20: [let cachedApiKey = null]. *)
Definition cold_cache : value := VNull.

(* ================================================================= *)
(** ** The handler *)

(** Lines 22-30. *)
Definition getRecaptchaApiKey (cfg : Config) (w : World) : M value :=
  cachedApiKey <- read_cache ;;
  if truthy cachedApiKey then ret cachedApiKey
  else
    let SecretId := RECAPTCHA_API_KEY_SECRET_NAME cfg in
    response <- perform (SecretsManagerSend SecretId) (secretsManager_send w SecretId) ;;
    SecretString <- lift (Get response (js "SecretString")) ;;
    write_cache SecretString ;;;
    read_cache.

(** The value a [verifyRecaptcha] promise resolves with. A field that the
    object literal does not set is [undefined]. *)
Record VerificationResult : Type := {
  success : bool;
  reason : value;
  score : value
}.

(** Lines 120-144: the [end] callback of the response, applied to the
    accumulated body text. [Normal] is [resolve], [Throw] is [reject]. *)
Definition response_end (expectedAction : jsstring) (data : jsstring)
  : completion VerificationResult :=
  response <~ JSON_parse data ;;
  error <~ Get response (js "error") ;;
  if truthy error then
    message <~ Get error (js "message") ;;
    Normal {| success := false; reason := message; score := VUndefined |}
  else
    tokenProperties <~ Get response (js "tokenProperties") ;;
    let tokenValid := is_true (OptGet tokenProperties (js "valid")) in
    let actionMatch := strict_eq_string (OptGet tokenProperties (js "action")) expectedAction in
    riskAnalysis <~ Get response (js "riskAnalysis") ;;
    let score := js_or (OptGet riskAnalysis (js "score")) (VNum zero) in
    if negb tokenValid then
      Normal {| success := false; reason := VStr (js "Invalid token"); score := VNum zero |}
    else if negb actionMatch then
      Normal {| success := false; reason := VStr (js "Action mismatch"); score := score |}
    else
      Normal {| success := true; reason := VUndefined; score := score |}.

(** Lines 98-104. *)
Definition verify_requestBody (cfg : Config) (token : value) (expectedAction : jsstring)
  : jsstring :=
  JSON_stringify
    (VObj [(js "event",
            VObj [(js "token", token);
                  (js "siteKey", RECAPTCHA_SITE_KEY cfg);
                  (js "expectedAction", VStr expectedAction)])]).

(** Lines 106-115. *)
Definition verify_options (cfg : Config) (apiKey : value) (requestBody : jsstring)
  : RequestOptions := {|
  hostname := js "recaptchaenterprise.googleapis.com";
  port := 443;
  path := js "/v1/projects/" ++ ToString (RECAPTCHA_PROJECT_ID cfg)
          ++ js "/assessments?key=" ++ ToString apiKey;
  method := js "POST";
  header_Content_Type := js "application/json";
  header_Content_Length := Buffer_byteLength requestBody
|}.

(** Lines 96-151: the request either emits [error] or its response ends with
    the body text [data]. *)
Definition verifyRecaptcha (cfg : Config) (w : World)
  (token : value) (expectedAction : jsstring) (apiKey : value) : M VerificationResult :=
  let requestBody := verify_requestBody cfg token expectedAction in
  let options := verify_options cfg apiKey requestBody in
  data <- perform (HttpsRequest options requestBody) (https_request w options requestBody) ;;
  lift (response_end expectedAction data).

Definition newline : jsstring := [10%N].

(** Line 161. *)
Definition email_text (name email subject message : value) : jsstring :=
  js "From: " ++ ToString name ++ newline ++ newline
  ++ js "Email: " ++ ToString email ++ newline ++ newline
  ++ js "Subject: " ++ ToString subject ++ newline ++ newline
  ++ js "Message: " ++ ToString message.

(** Lines 154-171. *)
Definition sendEmail_params (cfg : Config) (name email subject message : value)
  : SendEmailParams := {|
  ToAddresses := [RECEIVER cfg];
  Body_Text_Data := email_text name email subject message;
  Body_Text_Charset := js "UTF-8";
  Subject_Data := SUBJECT cfg;
  Subject_Charset := js "UTF-8";
  Source := SENDER cfg
|}.

(** Lines 153-175. *)
Definition sendEmail (cfg : Config) (w : World) (event : value) : M unit :=
  name <- lift (Get event (js "name")) ;;
  email <- lift (Get event (js "email")) ;;
  subject <- lift (Get event (js "subject")) ;;
  message <- lift (Get event (js "message")) ;;
  let params := sendEmail_params cfg name email subject message in
  perform (SesSend params) (ses_send w params).

(** The object the handler returns. *)
Record Response : Type := {
  statusCode : Z;
  headers : list (jsstring * jsstring);
  body : jsstring
}.

Definition json_headers : list (jsstring * jsstring) :=
  [(js "Content-Type", js "application/json")].

Definition success_body : value := VObj [(js "result", VStr (js "Success"))].

Definition failed_body (why : jsstring) : value :=
  VObj [(js "result", VStr (js "Failed")); (js "reason", VStr why)].

Definition respond (status : Z) (payload : value) : Response :=
  {| statusCode := status; headers := json_headers; body := JSON_stringify payload |}.

(** Lines 50-54, 59-63, 70-74, 81-85 and 88-92. *)
Definition verification_failed : Response :=
  respond 400 (failed_body (js "reCAPTCHA verification failed")).
Definition submission_blocked : Response :=
  respond 400 (failed_body (js "Submission blocked")).
Definition recaptcha_service_error : Response :=
  respond 500 (failed_body (js "reCAPTCHA service error")).
Definition email_sent : Response := respond 200 success_body.
Definition email_service_error : Response :=
  respond 500 (failed_body (js "Email service error")).

(** Lines 36-41. *)
Definition normalize (event : value) : completion value :=
  event_body <~ Get event (js "body") ;;
  match event_body with
  | VStr text => JSON_parse text
  | _ => if truthy event_body then Normal event_body else Normal event
  end.

(** Lines 45-66, the body of the first [try]: [Some r] when it returns [r],
    [None] when control reaches the end of the block. *)
Definition recaptcha_gate (cfg : Config) (w : World) (body : value) : M (option Response) :=
  apiKey <- getRecaptchaApiKey cfg w ;;
  token <- lift (Get body (js "recaptchaToken")) ;;
  recaptchaResult <- verifyRecaptcha cfg w token (js "contact_submit") apiKey ;;
  if negb (success recaptchaResult) then ret (Some verification_failed)
  else if js_lt (score recaptchaResult) (RECAPTCHA_SCORE_THRESHOLD cfg)
  then ret (Some submission_blocked)
  else ret None.

(** Lines 32-94. *)
Definition handler (cfg : Config) (w : World) (event : value) : M Response :=
  body <- lift (normalize event) ;;
  returned <- try_catch (recaptcha_gate cfg w body)
                (fun _ => ret (Some recaptcha_service_error)) ;;
  match returned with
  | Some response => ret response
  | None =>
      try_catch (sendEmail cfg w body ;;; ret email_sent)
        (fun _ => ret email_service_error)
  end.

(** A warm instance serving one invocation after the other: each invocation
    meets its own answers of the collaborators and starts with the
    [cachedApiKey] the previous one left. *)
Fixpoint invocations (cfg : Config) (cachedApiKey : value) (reqs : list (World * value))
  : list (Outcome Response) :=
  match reqs with
  | [] => []
  | (w, event) :: rest =>
      let o := handler cfg w event cachedApiKey in
      o :: invocations cfg (cache o) rest
  end.

(* ================================================================= *)
(** ** Vocabulary of the properties *)

(** The calls of each kind among the calls of an invocation. *)
Definition secret_calls (l : list call) : list value :=
  flat_map (fun c => match c with SecretsManagerSend id => [id] | _ => [] end) l.
Definition verify_calls (l : list call) : list (RequestOptions * jsstring) :=
  flat_map (fun c => match c with HttpsRequest o b => [(o, b)] | _ => [] end) l.
Definition email_calls (l : list call) : list SendEmailParams :=
  flat_map (fun c => match c with SesSend p => [p] | _ => [] end) l.

(** Lines 125 and 130-132 read on a parsed response. *)
Definition has_error (response : value) : bool :=
  truthy (OptGet response (js "error")).
Definition tokenValid (response : value) : bool :=
  is_true (OptGet (OptGet response (js "tokenProperties")) (js "valid")).
Definition actionMatches (response : value) (expectedAction : jsstring) : bool :=
  strict_eq_string (OptGet (OptGet response (js "tokenProperties")) (js "action")) expectedAction.
Definition riskScore (response : value) : value :=
  js_or (OptGet (OptGet response (js "riskAnalysis")) (js "score")) (VNum zero).

(** The message [sendEmail] builds from a normalized submission. *)
Definition submission_params (cfg : Config) (body : value) : SendEmailParams :=
  sendEmail_params cfg (OptGet body (js "name")) (OptGet body (js "email"))
    (OptGet body (js "subject")) (OptGet body (js "message")).

(** An object whose properties are all strings, and the text of one of its
    members in [JSON.stringify]. *)
Definition member (kv : jsstring * jsstring) : jsstring :=
  QuoteJSONString (fst kv) ++ js ":" ++ QuoteJSONString (snd kv).

Definition string_object (fields : list (jsstring * jsstring)) : value :=
  VObj (map (fun kv => (fst kv, VStr (snd kv))) fields).

(** The members in [fields] are well-formed strings under keys that are not
    array indices, each key new with respect to [seen] and to the members
    before it: [CreateDataProperty] then appends them one by one. *)
Fixpoint fresh_fields (seen : list (jsstring * value)) (fields : list (jsstring * jsstring))
  : Prop :=
  match fields with
  | [] => True
  | (k, v) :: rest =>
      has_key k seen = false /\ array_index k = None /\ wf_string k /\ wf_string v /\
      fresh_fields (seen ++ [(k, VStr v)]) rest
  end.

(** The same, member by member. *)
Definition plain_field (acc : list (jsstring * value)) (kv : jsstring * jsstring) : Prop :=
  array_index (fst kv) = None /\ wf_string (fst kv) /\ wf_string (snd kv) /\
  has_key (fst kv) acc = false.

(** The submission of the contact form (section 3 of the specification, with
    the property names of the source). *)
Module Submission.
Record t : Type := {
  name : jsstring;
  email : jsstring;
  subject : jsstring;
  message : jsstring;
  recaptchaToken : jsstring
}.

Definition fields (s : t) : list (jsstring * jsstring) :=
  [(js "name", name s); (js "email", email s); (js "subject", subject s);
   (js "message", message s); (js "recaptchaToken", recaptchaToken s)].

Definition wf (s : t) : Prop :=
  wf_string (name s) /\ wf_string (email s) /\ wf_string (subject s) /\
  wf_string (message s) /\ wf_string (recaptchaToken s).
End Submission.

(** The form behind [example_submission]. *)
Definition example_form : Submission.t := {|
  Submission.name := js "Ada";
  Submission.email := js "ada@example.org";
  Submission.subject := js "Hello";
  Submission.message := js "A first message.";
  Submission.recaptchaToken := js "token-1"
|}.

(** The response contract: the JSON text of [{result: "Success"}] with
    status 200, or of [{result: "Failed", reason: why}] with status 400 or
    500, and the one header [Content-Type: application/json]. *)
Definition response_contract (r : Response) : Prop :=
  headers r = [(js "Content-Type", js "application/json")] /\
  ((statusCode r = 200 /\
    body r = JSON_stringify success_body /\
    JSON_parse (body r) = Normal success_body)
   \/
   ((statusCode r = 400 \/ statusCode r = 500) /\
    exists why,
      body r = JSON_stringify (failed_body why) /\
      JSON_parse (body r) = Normal (failed_body why))).

(* ================================================================= *)
(** ** A concrete deployment, for the examples *)

(** JSON text written with single quotes in place of double quotes. *)
Definition json_text (s : string) : jsstring :=
  map (fun c => if (c =? 39)%N then 34%N else c) (js s).

Definition example_env : process_env :=
  fun name =>
    if str_eqb name (js "SENDER_EMAIL") then Some (js "noreply@example.org")
    else if str_eqb name (js "RECEIVER_EMAIL") then Some (js "owner@example.org")
    else if str_eqb name (js "RECAPTCHA_API_KEY_SECRET_NAME") then Some (js "recaptcha/api-key")
    else if str_eqb name (js "RECAPTCHA_PROJECT_ID") then Some (js "example-project")
    else if str_eqb name (js "RECAPTCHA_SITE_KEY") then Some (js "site-key")
    else None.

Definition example_cfg : Config := load_config example_env.

Definition example_submission : value :=
  VObj [(js "name", VStr (js "Ada"));
        (js "email", VStr (js "ada@example.org"));
        (js "subject", VStr (js "Hello"));
        (js "message", VStr (js "A first message."));
        (js "recaptchaToken", VStr (js "token-1"))].

(** A Function URL event: the submission is the JSON text of [body]. *)
Definition example_event : value :=
  VObj [(js "body",
         VStr (json_text
           "{'name':'Ada','email':'ada@example.org','subject':'Hello','message':'A first message.','recaptchaToken':'token-1'}"))].

Definition secret_response : value := VObj [(js "SecretString", VStr (js "api-key"))].

(** The three collaborators up, the verification service answering [data]. *)
Definition world_answering (data : jsstring) : World := {|
  secretsManager_send := fun _ => Normal secret_response;
  https_request := fun _ _ => Normal data;
  ses_send := fun _ => Normal tt
|}.

Definition world_secret_down : World := {|
  secretsManager_send := fun _ => Throw (ServiceFailure (js "AccessDeniedException"));
  https_request := fun _ _ => Throw (ServiceFailure (js "ECONNREFUSED"));
  ses_send := fun _ => Throw (ServiceFailure (js "MessageRejected"))
|}.

Definition world_verify_down : World := {|
  secretsManager_send := fun _ => Normal secret_response;
  https_request := fun _ _ => Throw (ServiceFailure (js "ECONNRESET"));
  ses_send := fun _ => Normal tt
|}.


Definition assessment_passed : jsstring :=
  json_text "{'tokenProperties':{'valid':true,'action':'contact_submit'},'riskAnalysis':{'score':0.9}}".
Definition assessment_low_score : jsstring :=
  json_text "{'tokenProperties':{'valid':true,'action':'contact_submit'},'riskAnalysis':{'score':0.3}}".
Definition assessment_no_score : jsstring :=
  json_text "{'tokenProperties':{'valid':true,'action':'contact_submit'}}".
Definition assessment_invalid_token : jsstring :=
  json_text "{'tokenProperties':{'valid':false,'action':'contact_submit'},'riskAnalysis':{'score':0.9}}".
Definition assessment_with_error : jsstring :=
  json_text "{'error':{'code':400,'message':'API key not valid'},'tokenProperties':{'valid':true,'action':'contact_submit'},'riskAnalysis':{'score':0.9}}".

(** The request [verifyRecaptcha] sends for [example_event] with the fetched key. *)
Definition example_requestBody : jsstring :=
  verify_requestBody example_cfg (VStr (js "token-1")) (js "contact_submit").
Definition example_options : RequestOptions :=
  verify_options example_cfg (VStr (js "api-key")) example_requestBody.

(** A Function URL event whose body is form-encoded, not JSON. *)
Definition malformed_event : value :=
  VObj [(js "body", VStr (js "name=Ada&message=Hi"))].

(** A warm instance: the secret store is denied to the first invocation,
    answers the second, and is denied again to the third. *)
Definition example_run : list (World * value) :=
  [(world_secret_down, example_event);
   (world_answering assessment_passed, example_event);
   (world_secret_down, example_event)].

(* ================================================================= *)
(** ** The stack that deploys the site and the handler
       (cdk/lib/static-site-stack.ts, in its revision with the contact form) *)

(** The contact-form part of the properties of the stack. The optional
    threshold is a Number or [undefined]. *)
Record ContactFormConfig : Type := {
  senderEmail : jsstring;
  receiverEmail : jsstring;
  recaptchaApiKey : jsstring;
  recaptchaProjectId : jsstring;
  recaptchaSiteKey : jsstring;
  recaptchaScoreThreshold : option float
}.

Definition optional_number (x : option float) : value :=
  match x with
  | Some t => VNum t
  | None => VUndefined
  end.

(** The [environment] of the Lambda function, as the stack writes it; the
    threshold is [(contactForm.recaptchaScoreThreshold || 0.5).toString()]. *)
Definition function_environment (cf : ContactFormConfig) : list (jsstring * jsstring) :=
  [(js "SENDER_EMAIL", senderEmail cf);
   (js "RECEIVER_EMAIL", receiverEmail cf);
   (js "EMAIL_SUBJECT", js "Contact Form Submission");
   (js "RECAPTCHA_API_KEY", recaptchaApiKey cf);
   (js "RECAPTCHA_PROJECT_ID", recaptchaProjectId cf);
   (js "RECAPTCHA_SITE_KEY", recaptchaSiteKey cf);
   (js "RECAPTCHA_SCORE_THRESHOLD",
    ToString (js_or (optional_number (recaptchaScoreThreshold cf)) (VNum 0.5%float)))].

Fixpoint env_lookup (name : jsstring) (vars : list (jsstring * jsstring)) : option jsstring :=
  match vars with
  | [] => None
  | (k, v) :: rest => if str_eqb name k then Some v else env_lookup name rest
  end.

(** [process.env] of the deployed function: the variables of the stack, and
    under every other name what the Lambda runtime itself defines. *)
Definition deployed_env (runtime : process_env) (cf : ContactFormConfig) : process_env :=
  fun name =>
    match env_lookup name (function_environment cf) with
    | Some v => Some v
    | None => runtime name
    end.

(** [const domainNames = [domain, ...subdomains.map(sub => `${sub}.${domain}`)]]
    with the default [subdomains = ['www']] of the destructuring. *)
Definition default_subdomains (subdomains : option (list jsstring)) : list jsstring :=
  match subdomains with
  | Some l => l
  | None => [js "www"]
  end.

Definition domainNames (domain : jsstring) (subdomains : option (list jsstring))
  : list jsstring :=
  domain :: map (fun sub => sub ++ js "." ++ domain) (default_subdomains subdomains).

(** The properties given to the certificate, to the distribution and to the
    alias records. *)
Record CertificateProps : Type := {
  certificate_domainName : jsstring;
  subjectAlternativeNames : list jsstring
}.

Record ARecordProps : Type := {
  record_id : jsstring;
  recordName : jsstring
}.

(** [domainNames.slice(1)]. *)
Definition slice_1 (l : list jsstring) : list jsstring :=
  match l with
  | [] => []
  | _ :: rest => rest
  end.

Definition certificate_props (domain : jsstring) (subdomains : option (list jsstring))
  : CertificateProps := {|
  certificate_domainName := domain;
  subjectAlternativeNames := slice_1 (domainNames domain subdomains)
|}.

Definition distribution_domainNames (domain : jsstring) (subdomains : option (list jsstring))
  : list jsstring :=
  domainNames domain subdomains.

(** [domainNames.forEach((domainName, index) => new ARecord(this,
    `AliasRecord${index}`, {recordName: domainName, ...}))]. *)
Fixpoint alias_records_from (index : Z) (names : list jsstring) : list ARecordProps :=
  match names with
  | [] => []
  | domainName :: rest =>
      {| record_id := js "AliasRecord" ++ Z_digits index; recordName := domainName |}
      :: alias_records_from (index + 1) rest
  end.

Definition alias_records (domain : jsstring) (subdomains : option (list jsstring))
  : list ARecordProps :=
  alias_records_from 0 (domainNames domain subdomains).

(** The origins the Function URL of the contact form allows. *)
Definition allowedOrigins (domain : jsstring) : list jsstring :=
  [js "https://" ++ domain; js "https://www." ++ domain].

(** A secret stored as binary: the response has no [SecretString]. *)
Definition world_binary_secret (data : jsstring) : World := {|
  secretsManager_send := fun _ => Normal (VObj [(js "SecretBinary", VStr (js "a2V5"))]);
  https_request := fun _ _ => Normal data;
  ses_send := fun _ => Normal tt
|}.

(** The stack as the app instantiates it, with a threshold of 0. *)
Definition example_contactForm : ContactFormConfig := {|
  senderEmail := js "noreply@example.org";
  receiverEmail := js "owner@example.org";
  recaptchaApiKey := js "api-key";
  recaptchaProjectId := js "example-project";
  recaptchaSiteKey := js "site-key";
  recaptchaScoreThreshold := Some zero
|}.

(** A runtime that defines none of the variables the handler reads. *)
Definition lambda_runtime_env : process_env :=
  fun name => if str_eqb name (js "AWS_REGION") then Some (js "us-east-1") else None.


(* ================================================================= *)
(** ** Tactics *)

(** Walks the stages of the handler after the normalization, one case per
    outcome of each stage. *)
Ltac walk cfg w c body :=
  destruct (result (getRecaptchaApiKey cfg w c)) as [?apiKey|?e] eqn:?Hkey;
  [ destruct (Get body (js "recaptchaToken")) as [?token|?e] eqn:?Htok;
    [ destruct (https_request w _ _) as [?data|?e] eqn:?Hreply;
      [ match goal with
        | H : https_request w _ _ = Normal ?d |- _ =>
            destruct (response_end (js "contact_submit") d) as [?res|?e] eqn:?Hres;
            [ match goal with
              | Hr : response_end _ d = Normal ?r |- _ =>
                  destruct (success r) eqn:?Hsucc; cbn [negb];
                  [ destruct (js_lt (score r) (RECAPTCHA_SCORE_THRESHOLD cfg)) eqn:?Hlt;
                    [ | destruct (ses_send w _) as [?u|?e] eqn:?Hses ]
                  | ]
              end
            | ]
        end
      | ]
    | ]
  | ].


(** Splits a hypothesis [In x (calls o ++ l)] of a path of the handler, where
    [inv] tells what the calls of the credential step [o] are. *)
Ltac split_calls inv H :=
  apply in_app_or in H;
  destruct H as [H|H];
  [ apply inv in H; destruct H as [_ H]; try discriminate H
  | simpl in H; repeat (destruct H as [H|H]; try discriminate H); try contradiction ].

(** Case analysis of a hypothesis that a step of the parser succeeded. *)
Ltac parse_cases H :=
  repeat match type of H with
    | Some _ = Some _ => inversion H; subst; clear H
    | None = Some _ => discriminate H
    | option_map _ ?x = Some _ => destruct x eqn:?; simpl in H
    | context [if ?b then _ else _] => destruct b eqn:?
    | context [match ?x with _ => _ end] => destruct x eqn:?
    end.

(* ================================================================= *)
(** ** Reading properties *)

Lemma Get_defined (v : value) (k : jsstring) :
  nullish v = false -> Get v k = Normal (OptGet v k).
Proof. destruct v; simpl; intros H; try discriminate; reflexivity. Qed.

Lemma Get_Normal_inv (v : value) (k : jsstring) (x : value) :
  Get v k = Normal x -> nullish v = false /\ x = OptGet v k.
Proof. destruct v; simpl; intros H; inversion H; auto. Qed.

Lemma Get_Throw_inv (v : value) (k : jsstring) (e : exn) :
  Get v k = Throw e -> nullish v = true /\ e = TypeError.
Proof. destruct v; simpl; intros H; inversion H; auto. Qed.

Lemma truthy_not_nullish (v : value) : truthy v = true -> nullish v = false.
Proof. destruct v; simpl; intros H; try discriminate; reflexivity. Qed.

(* ================================================================= *)
(** ** The paths of the handler *)

Lemma getRecaptchaApiKey_warm (cfg : Config) (w : World) (c : value) :
  truthy c = true ->
  getRecaptchaApiKey cfg w c = {| result := Normal c; cache := c; calls := [] |}.
Proof.
  intros H. cbv [getRecaptchaApiKey bind read_cache ret result cache calls].
  rewrite H. reflexivity.
Qed.

Lemma getRecaptchaApiKey_cold (cfg : Config) (w : World) (c : value) :
  truthy c = false ->
  getRecaptchaApiKey cfg w c =
  let id := RECAPTCHA_API_KEY_SECRET_NAME cfg in
  match secretsManager_send w id with
  | Throw e => {| result := Throw e; cache := c; calls := [SecretsManagerSend id] |}
  | Normal response =>
      match Get response (js "SecretString") with
      | Throw e => {| result := Throw e; cache := c; calls := [SecretsManagerSend id] |}
      | Normal secret =>
          {| result := Normal secret; cache := secret; calls := [SecretsManagerSend id] |}
      end
  end.
Proof.
  intros H.
  cbv [getRecaptchaApiKey bind read_cache write_cache perform lift ret result cache calls].
  rewrite H. cbv zeta.
  destruct (secretsManager_send w (RECAPTCHA_API_KEY_SECRET_NAME cfg)) as [response|e];
    [|reflexivity].
  destruct (Get response (js "SecretString")); reflexivity.
Qed.

(** The credential step calls nothing but the secret store, at most once. *)
Lemma getRecaptchaApiKey_calls (cfg : Config) (w : World) (c : value) :
  calls (getRecaptchaApiKey cfg w c) =
  if truthy c then [] else [SecretsManagerSend (RECAPTCHA_API_KEY_SECRET_NAME cfg)].
Proof.
  destruct (truthy c) eqn:H.
  - rewrite getRecaptchaApiKey_warm by assumption. reflexivity.
  - rewrite getRecaptchaApiKey_cold by assumption. cbv zeta.
    destruct (secretsManager_send _ _) as [response|e]; [|reflexivity].
    destruct (Get response _); reflexivity.
Qed.

Lemma sendEmail_defined (cfg : Config) (w : World) (body c : value) :
  nullish body = false ->
  sendEmail cfg w body c =
  {| result := ses_send w (submission_params cfg body);
     cache := c;
     calls := [SesSend (submission_params cfg body)] |}.
Proof.
  intros H. cbv [sendEmail bind lift perform result cache calls].
  rewrite !(Get_defined body) by assumption. reflexivity.
Qed.

(** The handler, path by path. *)
Lemma handler_paths (cfg : Config) (w : World) (event c : value) :
  handler cfg w event c =
  match normalize event with
  | Throw e => {| result := Throw e; cache := c; calls := [] |}
  | Normal body =>
      let o := getRecaptchaApiKey cfg w c in
      let stop r l := {| result := Normal r; cache := cache o; calls := calls o ++ l |} in
      match result o with
      | Throw _ => stop recaptcha_service_error []
      | Normal apiKey =>
          match Get body (js "recaptchaToken") with
          | Throw _ => stop recaptcha_service_error []
          | Normal token =>
              let rb := verify_requestBody cfg token (js "contact_submit") in
              let op := verify_options cfg apiKey rb in
              match https_request w op rb with
              | Throw _ => stop recaptcha_service_error [HttpsRequest op rb]
              | Normal data =>
                  match response_end (js "contact_submit") data with
                  | Throw _ => stop recaptcha_service_error [HttpsRequest op rb]
                  | Normal res =>
                      if negb (success res) then
                        stop verification_failed [HttpsRequest op rb]
                      else if js_lt (score res) (RECAPTCHA_SCORE_THRESHOLD cfg) then
                        stop submission_blocked [HttpsRequest op rb]
                      else
                        let p := submission_params cfg body in
                        match ses_send w p with
                        | Normal _ => stop email_sent [HttpsRequest op rb; SesSend p]
                        | Throw _ => stop email_service_error [HttpsRequest op rb; SesSend p]
                        end
                  end
              end
          end
      end
  end.
Proof.
  cbv [handler bind lift result cache calls].
  destruct (normalize event) as [body|e]; [|reflexivity].
  cbv [try_catch recaptcha_gate verifyRecaptcha bind lift perform ret result cache calls].
  destruct (getRecaptchaApiKey cfg w c) as [r1 c1 l1]. cbv beta iota zeta.
  destruct r1 as [apiKey|e]; [|rewrite !app_nil_r; reflexivity].
  destruct (Get body (js "recaptchaToken")) as [token|e] eqn:Htok;
    [|rewrite !app_nil_r; reflexivity].
  apply Get_Normal_inv in Htok. destruct Htok as [Hbody _].
  destruct (https_request w _ _) as [data|e]; [|rewrite !app_nil_r; reflexivity].
  destruct (response_end (js "contact_submit") data) as [res|e];
    [|rewrite !app_nil_r; reflexivity].
  destruct (negb (success res)); [rewrite !app_nil_r; reflexivity|].
  destruct (js_lt (score res) (RECAPTCHA_SCORE_THRESHOLD cfg));
    [rewrite !app_nil_r; reflexivity|].
  rewrite sendEmail_defined by assumption. cbv [result cache calls].
  destruct (ses_send w (submission_params cfg body));
    rewrite ?app_nil_r, <- ?app_assoc; reflexivity.
Qed.

Lemma credential_call_inv (cfg : Config) (w : World) (c : value) (x : call) :
  In x (calls (getRecaptchaApiKey cfg w c)) ->
  truthy c = false /\ x = SecretsManagerSend (RECAPTCHA_API_KEY_SECRET_NAME cfg).
Proof.
  rewrite getRecaptchaApiKey_calls. destruct (truthy c); simpl; intuition.
Qed.

(** The verification call, when there is one, is the call that
    [verifyRecaptcha] builds from the token of the normalized submission and
    from the credential. *)
Lemma verify_call_inv (cfg : Config) (w : World) (event c : value)
  (op : RequestOptions) (rb : jsstring) :
  In (HttpsRequest op rb) (calls (handler cfg w event c)) ->
  exists body apiKey token,
    normalize event = Normal body /\
    result (getRecaptchaApiKey cfg w c) = Normal apiKey /\
    Get body (js "recaptchaToken") = Normal token /\
    rb = verify_requestBody cfg token (js "contact_submit") /\
    op = verify_options cfg apiKey rb.
Proof.
  rewrite handler_paths.
  destruct (normalize event) as [body|e]; [|simpl; contradiction].
  cbv zeta.
  destruct (result (getRecaptchaApiKey cfg w c)) as [apiKey|e] eqn:Hkey;
    cbn [calls]; intros H; [|split_calls credential_call_inv H].
  destruct (Get body (js "recaptchaToken")) as [token|e] eqn:Htok; [|split_calls credential_call_inv H].
  assert (In (HttpsRequest op rb)
            [HttpsRequest
               (verify_options cfg apiKey (verify_requestBody cfg token (js "contact_submit")))
               (verify_requestBody cfg token (js "contact_submit"))]
          \/ exists p, In (HttpsRequest op rb) [SesSend p]) as Hin.
  { destruct (https_request w _ _) as [data|e]; [|split_calls credential_call_inv H; left; left; exact H].
    destruct (response_end _ data) as [res|e]; [|split_calls credential_call_inv H; left; left; exact H].
    destruct (negb (success res)); [split_calls credential_call_inv H; left; left; exact H|].
    destruct (js_lt _ _); [split_calls credential_call_inv H; left; left; exact H|].
    destruct (ses_send w _); split_calls credential_call_inv H; left; left; exact H. }
  destruct Hin as [[Hin|[]]|[p [Hin|[]]]]; [|discriminate Hin].
  inversion Hin; subst. exists body, apiKey, token. auto.
Qed.

Lemma handler_verified (cfg : Config) (w : World) (event c body apiKey token : value) :
  normalize event = Normal body ->
  result (getRecaptchaApiKey cfg w c) = Normal apiKey ->
  Get body (js "recaptchaToken") = Normal token ->
  let rb := verify_requestBody cfg token (js "contact_submit") in
  let op := verify_options cfg apiKey rb in
  let o := getRecaptchaApiKey cfg w c in
  let stop r l := {| result := Normal r; cache := cache o; calls := calls o ++ l |} in
  handler cfg w event c =
  match https_request w op rb with
  | Throw _ => stop recaptcha_service_error [HttpsRequest op rb]
  | Normal data =>
      match response_end (js "contact_submit") data with
      | Throw _ => stop recaptcha_service_error [HttpsRequest op rb]
      | Normal res =>
          if negb (success res) then stop verification_failed [HttpsRequest op rb]
          else if js_lt (score res) (RECAPTCHA_SCORE_THRESHOLD cfg) then
            stop submission_blocked [HttpsRequest op rb]
          else
            let p := submission_params cfg body in
            match ses_send w p with
            | Normal _ => stop email_sent [HttpsRequest op rb; SesSend p]
            | Throw _ => stop email_service_error [HttpsRequest op rb; SesSend p]
            end
      end
  end.
Proof.
  intros Hn Hk Ht. rewrite handler_paths, Hn. cbv zeta. rewrite Hk, Ht. reflexivity.
Qed.

Lemma email_calls_app (l1 l2 : list call) :
  email_calls (l1 ++ l2) = email_calls l1 ++ email_calls l2.
Proof. apply flat_map_app. Qed.

Lemma verify_calls_app (l1 l2 : list call) :
  verify_calls (l1 ++ l2) = verify_calls l1 ++ verify_calls l2.
Proof. apply flat_map_app. Qed.

Lemma secret_calls_app (l1 l2 : list call) :
  secret_calls (l1 ++ l2) = secret_calls l1 ++ secret_calls l2.
Proof. apply flat_map_app. Qed.

Lemma credential_email_calls (cfg : Config) (w : World) (c : value) :
  email_calls (calls (getRecaptchaApiKey cfg w c)) = [].
Proof. rewrite getRecaptchaApiKey_calls. destruct (truthy c); reflexivity. Qed.

Lemma credential_verify_calls (cfg : Config) (w : World) (c : value) :
  verify_calls (calls (getRecaptchaApiKey cfg w c)) = [].
Proof. rewrite getRecaptchaApiKey_calls. destruct (truthy c); reflexivity. Qed.

(** ** Comparison with the threshold *)


Lemma default_threshold (env : process_env) :
  truthy (env_get env "RECAPTCHA_SCORE_THRESHOLD") = false ->
  RECAPTCHA_SCORE_THRESHOLD (load_config env) = 0.5%float.
Proof.
  intros H. cbv [load_config RECAPTCHA_SCORE_THRESHOLD js_or]. rewrite H.
  vm_compute. reflexivity.
Qed.

Lemma env_unset_falsy (env : process_env) (name : string) :
  env (js name) = None -> truthy (env_get env name) = false.
Proof. unfold env_get. intros ->. reflexivity. Qed.

(** ** What [JSON.parse] returns *)

Lemma parse_defined (fuel : nat) :
  (forall s v r, parse_value fuel s = Some (v, r) -> v <> VUndefined) /\
  (forall acc s v r, parse_elements fuel acc s = Some (v, r) -> v <> VUndefined) /\
  (forall acc s v r, parse_member fuel acc s = Some (v, r) -> v <> VUndefined).
Proof.
  induction fuel as [|f [IHv [IHe IHm]]].
  - repeat split; intros; discriminate.
  - repeat split.
    + intros s v r H. cbn [parse_value] in H.
      parse_cases H; try discriminate; eauto.
    + intros acc s v r H. cbn [parse_elements] in H.
      parse_cases H; try discriminate; eauto.
    + intros acc s v r H. cbn [parse_member] in H.
      parse_cases H; try discriminate; eauto.
Qed.

Lemma JSON_parse_defined (text : jsstring) (v : value) :
  JSON_parse text = Normal v -> v <> VUndefined.
Proof.
  unfold JSON_parse.
  destruct (parse_value _ text) as [[v' r]|] eqn:H; [|discriminate].
  destruct (skip_ws r); [|discriminate].
  intros E. inversion E; subst. eapply (proj1 (parse_defined _)); eassumption.
Qed.

Lemma JSON_parse_not_nullish (text : jsstring) (v : value) :
  JSON_parse text = Normal v -> v <> VNull -> nullish v = false.
Proof.
  intros H Hn. apply JSON_parse_defined in H. destruct v; try reflexivity; congruence.
Qed.

(** ** The verification result, case by case *)

Lemma response_end_cases (expectedAction data : jsstring) (response : value) :
  JSON_parse data = Normal response ->
  response_end expectedAction data =
  if nullish response then Throw TypeError
  else if has_error response then
    Normal {| success := false;
              reason := OptGet (OptGet response (js "error")) (js "message");
              score := VUndefined |}
  else if negb (tokenValid response) then
    Normal {| success := false; reason := VStr (js "Invalid token"); score := VNum zero |}
  else if negb (actionMatches response expectedAction) then
    Normal {| success := false; reason := VStr (js "Action mismatch");
              score := riskScore response |}
  else
    Normal {| success := true; reason := VUndefined; score := riskScore response |}.
Proof.
  intros Hp. unfold response_end. rewrite Hp. cbv [cbind].
  destruct (nullish response) eqn:Hn.
  - destruct response; try discriminate; reflexivity.
  - rewrite !(Get_defined response) by assumption.
    unfold has_error, tokenValid, actionMatches, riskScore.
    destruct (truthy (OptGet response (js "error"))) eqn:He.
    + rewrite Get_defined by (apply truthy_not_nullish; assumption). reflexivity.
    + reflexivity.
Qed.

(** Every path that reaches the verification call stops before the email
    unless the result passes both checks. *)
Lemma gate_after_result (cfg : Config) (w : World) (event c : value)
  (op : RequestOptions) (rb data : jsstring) (res : VerificationResult) :
  In (HttpsRequest op rb) (calls (handler cfg w event c)) ->
  https_request w op rb = Normal data ->
  response_end (js "contact_submit") data = Normal res ->
  exists body,
    normalize event = Normal body /\
    nullish body = false /\
    let o := getRecaptchaApiKey cfg w c in
    let stop r l := {| result := Normal r; cache := cache o; calls := calls o ++ l |} in
    handler cfg w event c =
    if negb (success res) then stop verification_failed [HttpsRequest op rb]
    else if js_lt (score res) (RECAPTCHA_SCORE_THRESHOLD cfg) then
      stop submission_blocked [HttpsRequest op rb]
    else
      let p := submission_params cfg body in
      match ses_send w p with
      | Normal _ => stop email_sent [HttpsRequest op rb; SesSend p]
      | Throw _ => stop email_service_error [HttpsRequest op rb; SesSend p]
      end.
Proof.
  intros Hin Hreply Hres.
  destruct (verify_call_inv _ _ _ _ _ _ Hin)
    as (body & apiKey & token & Hn & Hk & Ht & Hrb & Hop).
  exists body. split; [assumption|].
  split; [apply Get_Normal_inv in Ht; tauto|].
  cbv zeta. rewrite (handler_verified _ _ _ _ _ _ _ Hn Hk Ht). cbv zeta.
  rewrite <- Hrb, <- Hop, Hreply, Hres. reflexivity.
Qed.

(** C2. Decision gate. Whenever the verification stage of an invocation
    resolves with a result [res]: if [res] is not a success the handler
    returns 400 with reason "reCAPTCHA verification failed" and sends no
    email, whatever the score; otherwise, if the carried score is strictly
    below the configured threshold, it returns 400 with reason "Submission
    blocked" and sends no email. A result is not a success exactly when the
    response carries an error field, an invalid token or another action. The
    threshold is 0.5 when the environment does not configure one. *)
Theorem decision_gate (cfg : Config) (w : World) (event c : value)
  (op : RequestOptions) (rb data : jsstring) (res : VerificationResult) :
  In (HttpsRequest op rb) (calls (handler cfg w event c)) ->
  https_request w op rb = Normal data ->
  response_end (js "contact_submit") data = Normal res ->
  (success res = false ->
     result (handler cfg w event c)
       = Normal (respond 400 (failed_body (js "reCAPTCHA verification failed"))) /\
     email_calls (calls (handler cfg w event c)) = []) /\
  (success res = true ->
   js_lt (score res) (RECAPTCHA_SCORE_THRESHOLD cfg) = true ->
     result (handler cfg w event c)
       = Normal (respond 400 (failed_body (js "Submission blocked"))) /\
     email_calls (calls (handler cfg w event c)) = []) /\
  (forall response, JSON_parse data = Normal response ->
     (success res = false <->
      has_error response = true \/ tokenValid response = false
      \/ actionMatches response (js "contact_submit") = false)) /\
  (forall env, env (js "RECAPTCHA_SCORE_THRESHOLD") = None ->
     RECAPTCHA_SCORE_THRESHOLD (load_config env) = 0.5%float).
Proof.
  intros Hin Hreply Hres.
  destruct (gate_after_result _ _ _ _ _ _ _ _ Hin Hreply Hres) as (body & _ & _ & Hh).
  cbv zeta in Hh.
  repeat split.
  - rewrite Hh, H. reflexivity.
  - rewrite Hh, H. cbn [negb calls]. rewrite email_calls_app, credential_email_calls.
    reflexivity.
  - rewrite Hh, H, H0. reflexivity.
  - rewrite Hh, H, H0. cbn [negb calls]. rewrite email_calls_app, credential_email_calls.
    reflexivity.
  - intros Hs. rewrite (response_end_cases _ _ _ H) in Hres.
    destruct (nullish response); [discriminate|].
    destruct (has_error response); [auto|].
    destruct (tokenValid response); [|auto].
    destruct (actionMatches response (js "contact_submit")); [|auto].
    cbn in Hres. inversion Hres; subst. discriminate.
  - intros Hc. rewrite (response_end_cases _ _ _ H) in Hres.
    destruct (nullish response); [discriminate|].
    destruct (has_error response); [inversion Hres; reflexivity|].
    destruct (tokenValid response); [|inversion Hres; reflexivity].
    destruct (actionMatches response (js "contact_submit")); [|inversion Hres; reflexivity].
    destruct Hc as [Hc|[Hc|Hc]]; discriminate.
  - intros env Henv. apply default_threshold, env_unset_falsy. assumption.
Qed.

(** A submission scored 0.3 against the default threshold is blocked. *)
Lemma decision_gate_witness :
  result (handler example_cfg (world_answering assessment_low_score) example_event cold_cache)
    = Normal (respond 400 (failed_body (js "Submission blocked"))) /\
  email_calls
    (calls (handler example_cfg (world_answering assessment_low_score) example_event
              cold_cache)) = [].
Proof.
  refine (proj1 (proj2 (decision_gate example_cfg (world_answering assessment_low_score)
            example_event cold_cache example_options example_requestBody
            assessment_low_score
            {| success := true; reason := VUndefined; score := VNum 0.3%float |}
            _ _ _)) _ _).
  - vm_compute. right. left. reflexivity.
  - reflexivity.
  - vm_compute. reflexivity.
  - reflexivity.
  - vm_compute. reflexivity.
Defined.

(** ** Failures of the collaborators *)

(** A secret-store call happens only from a cache that holds no key, and
    when it fails the invocation ends there. *)
Lemma secret_call_inv (cfg : Config) (w : World) (event c : value) (id : value) :
  In (SecretsManagerSend id) (calls (handler cfg w event c)) ->
  truthy c = false /\ id = RECAPTCHA_API_KEY_SECRET_NAME cfg /\
  exists body, normalize event = Normal body.
Proof.
  rewrite handler_paths.
  destruct (normalize event) as [body|e]; [|simpl; contradiction].
  cbv zeta. intros H.
  assert (In (SecretsManagerSend id) (calls (getRecaptchaApiKey cfg w c))) as Hin.
  { destruct (result (getRecaptchaApiKey cfg w c)) as [apiKey|e];
      cbn [calls] in H;
      [|apply in_app_or in H; destruct H as [H|[]]; exact H].
    destruct (Get body (js "recaptchaToken")) as [token|e];
      [|apply in_app_or in H; destruct H as [H|[]]; exact H].
    destruct (https_request w _ _) as [data|e];
      [|apply in_app_or in H; destruct H as [H|[H|[]]]; [exact H|discriminate H]].
    destruct (response_end _ data) as [res|e];
      [|apply in_app_or in H; destruct H as [H|[H|[]]]; [exact H|discriminate H]].
    destruct (negb (success res));
      [apply in_app_or in H; destruct H as [H|[H|[]]]; [exact H|discriminate H]|].
    destruct (js_lt _ _);
      [apply in_app_or in H; destruct H as [H|[H|[]]]; [exact H|discriminate H]|].
    destruct (ses_send w _);
      (apply in_app_or in H; destruct H as [H|[H|[H|[]]]];
       [exact H|discriminate H|discriminate H]). }
  apply credential_call_inv in Hin. destruct Hin as [Hc Hid].
  inversion Hid; subst. eauto.
Qed.

Lemma secret_failure (cfg : Config) (w : World) (event c : value) (id : value) (e : exn) :
  In (SecretsManagerSend id) (calls (handler cfg w event c)) ->
  secretsManager_send w id = Throw e ->
  handler cfg w event c =
  {| result := Normal recaptcha_service_error; cache := c;
     calls := [SecretsManagerSend id] |}.
Proof.
  intros Hin Hsend.
  destruct (secret_call_inv _ _ _ _ _ Hin) as (Hc & Hid & body & Hn). subst id.
  rewrite handler_paths, Hn. cbv zeta.
  rewrite (getRecaptchaApiKey_cold _ _ _ Hc). cbv zeta. rewrite Hsend. reflexivity.
Qed.

(** A handler that reaches the credential step with an empty cache starts
    with a secret-store call. *)
Lemma cold_invocation_fetches (cfg : Config) (w : World) (event c body : value) :
  truthy c = false ->
  normalize event = Normal body ->
  exists rest,
    calls (handler cfg w event c)
    = SecretsManagerSend (RECAPTCHA_API_KEY_SECRET_NAME cfg) :: rest.
Proof.
  intros Hc Hn. rewrite handler_paths, Hn. cbv zeta.
  assert (calls (getRecaptchaApiKey cfg w c)
          = [SecretsManagerSend (RECAPTCHA_API_KEY_SECRET_NAME cfg)]) as Hcalls.
  { rewrite getRecaptchaApiKey_calls, Hc. reflexivity. }
  assert (forall (r : completion Response) k l, exists rest,
            calls {| result := r; cache := k;
                     calls := calls (getRecaptchaApiKey cfg w c) ++ l |}
            = SecretsManagerSend (RECAPTCHA_API_KEY_SECRET_NAME cfg) :: rest) as Hstop.
  { intros r k l. cbn [calls]. rewrite Hcalls. eexists. reflexivity. }
  destruct (result (getRecaptchaApiKey cfg w c)) as [apiKey|e]; [|apply Hstop].
  destruct (Get body _) as [token|e]; [|apply Hstop].
  destruct (https_request w _ _) as [data|e]; [|apply Hstop].
  destruct (response_end _ data) as [res|e]; [|apply Hstop].
  destruct (negb (success res)); [apply Hstop|].
  destruct (js_lt _ _); [apply Hstop|].
  destruct (ses_send w _); apply Hstop.
Qed.

(** C3. If the secret-store call of an invocation fails, the handler returns
    500 with reason "reCAPTCHA service error", makes no verification call and
    no email-send call, and leaves the credential cache as it was, empty; so
    the credential step of a later invocation calls the secret store again. *)
Theorem secret_store_failure (cfg : Config) (w : World) (event c : value)
  (id : value) (e : exn) :
  In (SecretsManagerSend id) (calls (handler cfg w event c)) ->
  secretsManager_send w id = Throw e ->
  result (handler cfg w event c)
    = Normal (respond 500 (failed_body (js "reCAPTCHA service error"))) /\
  verify_calls (calls (handler cfg w event c)) = [] /\
  email_calls (calls (handler cfg w event c)) = [] /\
  cache (handler cfg w event c) = c /\
  truthy (cache (handler cfg w event c)) = false /\
  (forall w', calls (getRecaptchaApiKey cfg w' (cache (handler cfg w event c)))
              = [SecretsManagerSend (RECAPTCHA_API_KEY_SECRET_NAME cfg)]) /\
  (forall w' event' body', normalize event' = Normal body' ->
     exists rest,
       calls (handler cfg w' event' (cache (handler cfg w event c)))
       = SecretsManagerSend (RECAPTCHA_API_KEY_SECRET_NAME cfg) :: rest).
Proof.
  intros Hin Hsend.
  destruct (secret_call_inv _ _ _ _ _ Hin) as (Hc & _ & _).
  rewrite (secret_failure _ _ _ _ _ _ Hin Hsend). cbn [result cache calls].
  repeat split; try assumption.
  - intros w'. rewrite getRecaptchaApiKey_calls, Hc. reflexivity.
  - intros w' event' body' Hn. eapply cold_invocation_fetches; eassumption.
Qed.

(** On a cold instance whose secret store denies access, the first
    invocation answers 500 and the cache is still [null]. *)
Lemma secret_store_failure_witness :
  result (handler example_cfg world_secret_down example_event cold_cache)
    = Normal (respond 500 (failed_body (js "reCAPTCHA service error"))) /\
  cache (handler example_cfg world_secret_down example_event cold_cache) = VNull.
Proof.
  destruct (secret_store_failure example_cfg world_secret_down example_event cold_cache
              (VStr (js "recaptcha/api-key")) (ServiceFailure (js "AccessDeniedException")))
    as (Hr & _ & _ & Hc & _).
  - vm_compute. left. reflexivity.
  - reflexivity.
  - split; [exact Hr | exact Hc].
Defined.

(** C9. If the verification call fails in transport, or the body of its
    response is not JSON, the handler returns 500 with reason "reCAPTCHA
    service error" and sends no email; this is the very response of an
    invocation whose secret-store call fails. *)
Theorem verification_service_failure (cfg : Config) (w : World) (event c : value)
  (op : RequestOptions) (rb : jsstring) :
  In (HttpsRequest op rb) (calls (handler cfg w event c)) ->
  (exists e, https_request w op rb = Throw e) \/
  (exists data e, https_request w op rb = Normal data /\ JSON_parse data = Throw e) ->
  result (handler cfg w event c)
    = Normal (respond 500 (failed_body (js "reCAPTCHA service error"))) /\
  email_calls (calls (handler cfg w event c)) = [] /\
  (forall cfg' w' event' c' id e,
     In (SecretsManagerSend id) (calls (handler cfg' w' event' c')) ->
     secretsManager_send w' id = Throw e ->
     result (handler cfg' w' event' c') = result (handler cfg w event c)).
Proof.
  intros Hin Hfail.
  destruct (verify_call_inv _ _ _ _ _ _ Hin)
    as (body & apiKey & token & Hn & Hk & Ht & Hrb & Hop).
  assert (handler cfg w event c =
          {| result := Normal recaptcha_service_error;
             cache := cache (getRecaptchaApiKey cfg w c);
             calls := calls (getRecaptchaApiKey cfg w c) ++ [HttpsRequest op rb] |}) as Hh.
  { rewrite (handler_verified _ _ _ _ _ _ _ Hn Hk Ht). cbv zeta.
    rewrite <- Hrb, <- Hop.
    destruct Hfail as [[e He]|(data & e & Hd & Hp)].
    - rewrite He. reflexivity.
    - rewrite Hd. unfold response_end. rewrite Hp. reflexivity. }
  rewrite Hh. cbn [result calls]. repeat split.
  - rewrite email_calls_app, credential_email_calls. reflexivity.
  - intros cfg' w' event' c' id e Hin' Hsend.
    rewrite (secret_failure _ _ _ _ _ _ Hin' Hsend). reflexivity.
Qed.

(** A connection reset during the verification request. *)
Lemma verification_service_failure_witness :
  result (handler example_cfg world_verify_down example_event cold_cache)
    = Normal (respond 500 (failed_body (js "reCAPTCHA service error"))) /\
  email_calls (calls (handler example_cfg world_verify_down example_event cold_cache)) = [].
Proof.
  destruct (verification_service_failure example_cfg world_verify_down example_event
              cold_cache example_options example_requestBody) as (Hr & Hm & _).
  - vm_compute. right. left. reflexivity.
  - left. exists (ServiceFailure (js "ECONNRESET")). reflexivity.
  - split; [exact Hr | exact Hm].
Defined.

(** ** The email *)








(** A second way out of C1 as stated: a response that carries an error field
    next to a valid token, the expected action and the score 0.9 is answered
    400. *)
Lemma error_field_overrides_token :
  exists response,
    JSON_parse assessment_with_error = Normal response /\
    tokenValid response = true /\
    actionMatches response (js "contact_submit") = true /\
    js_ge (riskScore response) (RECAPTCHA_SCORE_THRESHOLD example_cfg) = true /\
    result (handler example_cfg (world_answering assessment_with_error) example_event
              cold_cache)
      = Normal (respond 400 (failed_body (js "reCAPTCHA verification failed"))).
Proof.
  eexists. split; [vm_compute; reflexivity|].
  split; [reflexivity|]. split; [reflexivity|].
  split; vm_compute; reflexivity.
Qed.

(** ** The verification result *)

(** C5, as the code has it. For every JSON response of the verification
    service other than [null] whose error field is absent (or falsy), the
    verification resolves with a result that is a success exactly when the
    token is valid and the action matches; its score is
    [response.riskAnalysis.score] (0 when that is absent or falsy) when the
    token is valid, whether the action matches or not, and the constant 0
    when the token is invalid. *)
Theorem verification_result (expectedAction data : jsstring) (response : value) :
  JSON_parse data = Normal response ->
  response <> VNull ->
  has_error response = false ->
  exists res,
    response_end expectedAction data = Normal res /\
    success res = tokenValid response && actionMatches response expectedAction /\
    score res = (if tokenValid response then riskScore response else VNum zero).
Proof.
  intros Hp Hn He.
  rewrite (response_end_cases _ _ _ Hp), (JSON_parse_not_nullish _ _ Hp Hn), He.
  destruct (tokenValid response); cbn [negb andb].
  - destruct (actionMatches response expectedAction); cbn [negb];
      eexists; repeat split; reflexivity.
  - eexists. repeat split; reflexivity.
Qed.

(** An action mismatch keeps the score 0.9 of the response. *)
Lemma verification_result_witness :
  exists res,
    response_end (js "another_action") assessment_passed = Normal res /\
    success res = false /\
    score res = VNum 0.9%float.
Proof.
  destruct (verification_result (js "another_action") assessment_passed
              (VObj [(js "tokenProperties",
                      VObj [(js "valid", VBool true);
                            (js "action", VStr (js "contact_submit"))]);
                     (js "riskAnalysis", VObj [(js "score", VNum 0.9%float)])]))
    as (res & Hres & Hs & Hscore).
  - vm_compute. reflexivity.
  - discriminate.
  - reflexivity.
  - exists res. split; [exact Hres|]. split; [exact Hs | exact Hscore].
Defined.

(** C5 as stated fails: with an invalid token the result carries the score 0,
    not the score 0.9 of the response. *)
Lemma verification_result_counterexample :
  exists response res,
    JSON_parse assessment_invalid_token = Normal response /\
    OptGet response (js "error") = VUndefined /\
    OptGet (OptGet response (js "riskAnalysis")) (js "score") = VNum 0.9%float /\
    response_end (js "contact_submit") assessment_invalid_token = Normal res /\
    success res = false /\
    score res = VNum zero /\
    score res <> OptGet (OptGet response (js "riskAnalysis")) (js "score").
Proof.
  eexists. eexists.
  split; [vm_compute; reflexivity|].
  split; [reflexivity|]. split; [reflexivity|].
  split; [vm_compute; reflexivity|].
  split; [reflexivity|]. split; [reflexivity|].
  cbn. intros H. inversion H.
Qed.

(** C10, as the code has it. For every JSON response other than [null] whose
    error field is absent (or falsy) the verification resolves with a result,
    also when [tokenProperties] or [riskAnalysis] is absent: without
    [tokenProperties] the result is the failure "Invalid token"; with a valid
    token and an absent, zero or otherwise falsy [riskAnalysis.score] the
    score of the result is 0; so a submission with a valid token, the expected
    action and no score is answered 400 "Submission blocked", without an
    email, under the default threshold 0.5. *)
Theorem absent_fields (data : jsstring) (response : value) :
  JSON_parse data = Normal response ->
  response <> VNull ->
  has_error response = false ->
  (exists res,
     response_end (js "contact_submit") data = Normal res /\
     (OptGet response (js "tokenProperties") = VUndefined ->
      success res = false /\ reason res = VStr (js "Invalid token")) /\
     (tokenValid response = true ->
      truthy (OptGet (OptGet response (js "riskAnalysis")) (js "score")) = false ->
      score res = VNum zero)) /\
  (forall env w event c op rb,
     env (js "RECAPTCHA_SCORE_THRESHOLD") = None ->
     In (HttpsRequest op rb) (calls (handler (load_config env) w event c)) ->
     https_request w op rb = Normal data ->
     tokenValid response = true ->
     actionMatches response (js "contact_submit") = true ->
     OptGet (OptGet response (js "riskAnalysis")) (js "score") = VUndefined ->
     result (handler (load_config env) w event c)
       = Normal (respond 400 (failed_body (js "Submission blocked"))) /\
     email_calls (calls (handler (load_config env) w event c)) = []).
Proof.
  intros Hp Hn He.
  pose proof (response_end_cases (js "contact_submit") _ _ Hp) as Hcases.
  rewrite (JSON_parse_not_nullish _ _ Hp Hn), He in Hcases.
  split.
  - destruct (tokenValid response) eqn:Hv; cbn [negb] in Hcases.
    + destruct (actionMatches response (js "contact_submit")); cbn [negb] in Hcases;
        (eexists; split; [exact Hcases|]; split;
         [ intros Habs; unfold tokenValid in Hv; rewrite Habs in Hv; discriminate Hv
         | intros _ Hf; cbn [score]; unfold riskScore, js_or; rewrite Hf; reflexivity ]).
    + eexists. split; [exact Hcases|]. split; [intros _; split; reflexivity|].
      intros Hx; discriminate Hx.
  - intros env w event c op rb Henv Hin Hreply Hv Ha Hs.
    rewrite Hv, Ha in Hcases. cbn [negb] in Hcases.
    destruct (gate_after_result _ _ _ _ _ _ _ _ Hin Hreply Hcases) as (body & _ & _ & Hh).
    cbv zeta in Hh. cbn [success score negb] in Hh.
    assert (js_lt (riskScore response) (RECAPTCHA_SCORE_THRESHOLD (load_config env)) = true)
      as Hlt.
    { rewrite (default_threshold env) by (apply env_unset_falsy; assumption).
      unfold riskScore. rewrite Hs. vm_compute. reflexivity. }
    rewrite Hlt in Hh. rewrite Hh. cbn [result calls].
    rewrite email_calls_app, credential_email_calls. split; reflexivity.
Qed.

(** A valid token and the expected action without any [riskAnalysis]. *)
Lemma absent_fields_witness :
  result (handler example_cfg (world_answering assessment_no_score) example_event cold_cache)
    = Normal (respond 400 (failed_body (js "Submission blocked"))).
Proof.
  destruct (absent_fields assessment_no_score
              (VObj [(js "tokenProperties",
                      VObj [(js "valid", VBool true);
                            (js "action", VStr (js "contact_submit"))])]))
    as (_ & Hgate).
  - vm_compute. reflexivity.
  - discriminate.
  - reflexivity.
  - destruct (Hgate example_env (world_answering assessment_no_score) example_event
                cold_cache example_options example_requestBody) as (Hr & _).
    + reflexivity.
    + vm_compute. right. left. reflexivity.
    + reflexivity.
    + reflexivity.
    + reflexivity.
    + reflexivity.
    + exact Hr.
Defined.

(** C10 as stated fails: the response [null] is JSON and has no error field,
    yet the verification rejects, and the submission is answered 500
    "reCAPTCHA service error" rather than treated as an invalid token. *)
Lemma absent_fields_counterexample :
  JSON_parse (js "null") = Normal VNull /\
  OptGet VNull (js "error") = VUndefined /\
  OptGet VNull (js "tokenProperties") = VUndefined /\
  response_end (js "contact_submit") (js "null") = Throw TypeError /\
  result (handler example_cfg (world_answering (js "null")) example_event cold_cache)
    = Normal (respond 500 (failed_body (js "reCAPTCHA service error"))) /\
  result (handler example_cfg (world_answering (js "null")) example_event cold_cache)
    <> Normal (respond 400 (failed_body (js "reCAPTCHA verification failed"))).
Proof.
  split; [vm_compute; reflexivity|].
  split; [reflexivity|]. split; [reflexivity|].
  split; [vm_compute; reflexivity|].
  split; [vm_compute; reflexivity|].
  vm_compute. discriminate.
Qed.

(** ** The response contract *)

Lemma contract_verification_failed : response_contract verification_failed.
Proof.
  split; [reflexivity|]. right. split; [left; reflexivity|].
  exists (js "reCAPTCHA verification failed"). split; [reflexivity|vm_compute; reflexivity].
Qed.

Lemma contract_submission_blocked : response_contract submission_blocked.
Proof.
  split; [reflexivity|]. right. split; [left; reflexivity|].
  exists (js "Submission blocked"). split; [reflexivity|vm_compute; reflexivity].
Qed.

Lemma contract_recaptcha_service_error : response_contract recaptcha_service_error.
Proof.
  split; [reflexivity|]. right. split; [right; reflexivity|].
  exists (js "reCAPTCHA service error"). split; [reflexivity|vm_compute; reflexivity].
Qed.

Lemma contract_email_service_error : response_contract email_service_error.
Proof.
  split; [reflexivity|]. right. split; [right; reflexivity|].
  exists (js "Email service error"). split; [reflexivity|vm_compute; reflexivity].
Qed.

Lemma contract_email_sent : response_contract email_sent.
Proof.
  split; [reflexivity|]. left. split; [reflexivity|].
  split; [reflexivity|vm_compute; reflexivity].
Qed.

Lemma normalize_defined (event : value) :
  nullish event = false ->
  (forall text, OptGet event (js "body") = VStr text ->
                exists v, JSON_parse text = Normal v) ->
  exists body, normalize event = Normal body.
Proof.
  intros Hn Hjson. unfold normalize. rewrite (Get_defined _ _ Hn). cbv [cbind].
  destruct (OptGet event (js "body")) as [| |b|x|text|l|l] eqn:Hb;
    try (destruct (truthy _); eexists; reflexivity).
  apply (Hjson text). reflexivity.
Qed.

Lemma handler_not_normalized (cfg : Config) (w : World) (event c : value) (e : exn) :
  normalize event = Throw e ->
  handler cfg w event c = {| result := Throw e; cache := c; calls := [] |}.
Proof. intros Hn. rewrite handler_paths, Hn. reflexivity. Qed.

(** X5. Every invocation whose payload is normalized is answered according to
    the contract: for an event other than [null] whose [body] field, when it
    is a string, holds JSON text, the handler returns a response with the
    header [Content-Type: application/json] that is either status 200 with
    the body [{result: "Success"}] or status 400 or 500 with a body
    [{result: "Failed", reason: <string>}]. *)
Lemma normalized_payload_contract (cfg : Config) (w : World) (event c : value) :
  event <> VNull -> event <> VUndefined ->
  (forall text, OptGet event (js "body") = VStr text ->
                exists v, JSON_parse text = Normal v) ->
  exists r,
    result (handler cfg w event c) = Normal r /\
    (statusCode r = 200 \/ statusCode r = 400 \/ statusCode r = 500) /\
    response_contract r.
Proof.
  intros Hnull Hundef Hjson.
  assert (nullish event = false) as Hn by (destruct event; try reflexivity; congruence).
  destruct (normalize_defined event Hn Hjson) as [body Hb].
  rewrite handler_paths, Hb. cbv zeta.
  destruct (result (getRecaptchaApiKey cfg w c)) as [apiKey|e];
    [|eexists; split; [reflexivity|]; split;
      [right; right; reflexivity | apply contract_recaptcha_service_error]].
  destruct (Get body (js "recaptchaToken")) as [token|e];
    [|eexists; split; [reflexivity|]; split;
      [right; right; reflexivity | apply contract_recaptcha_service_error]].
  destruct (https_request w _ _) as [data|e];
    [|eexists; split; [reflexivity|]; split;
      [right; right; reflexivity | apply contract_recaptcha_service_error]].
  destruct (response_end _ data) as [res|e];
    [|eexists; split; [reflexivity|]; split;
      [right; right; reflexivity | apply contract_recaptcha_service_error]].
  destruct (negb (success res));
    [eexists; split; [reflexivity|]; split;
      [right; left; reflexivity | apply contract_verification_failed]|].
  destruct (js_lt _ _);
    [eexists; split; [reflexivity|]; split;
      [right; left; reflexivity | apply contract_submission_blocked]|].
  destruct (ses_send w _); eexists; (split; [reflexivity|]); split.
  - left. reflexivity.
  - apply contract_email_sent.
  - right. right. reflexivity.
  - apply contract_email_service_error.
Qed.

(** The example event, whose [body] is a string, with every collaborator up. *)
Lemma normalized_payload_contract_example :
  exists r,
    result (handler example_cfg (world_answering assessment_passed) example_event cold_cache)
      = Normal r /\
    (statusCode r = 200 \/ statusCode r = 400 \/ statusCode r = 500) /\
    response_contract r.
Proof.
  apply (normalized_payload_contract example_cfg (world_answering assessment_passed)
           example_event cold_cache).
  - discriminate.
  - discriminate.
  - intros text H. inversion H; subst. eexists. vm_compute. reflexivity.
Defined.

(** C6 fails on the code. An envelope whose [body] is a string that is not
    JSON text (here a form-encoded body) makes the handler throw the
    SyntaxError of [JSON.parse(event.body)], line 38, which no [try]
    encloses: no response is returned, and no collaborator is called. *)
Theorem malformed_body_throws :
  OptGet malformed_event (js "body") = VStr (js "name=Ada&message=Hi") /\
  JSON_parse (js "name=Ada&message=Hi") = Throw SyntaxError /\
  handler example_cfg (world_answering assessment_passed) malformed_event cold_cache
  = {| result := Throw SyntaxError; cache := cold_cache; calls := [] |}.
Proof.
  split; [reflexivity|]. split; vm_compute; reflexivity.
Qed.

(** The same on every deployment, and for the payload [null], whose [body]
    cannot be read (line 37). *)
Lemma unnormalized_payload_throws (cfg : Config) (w : World) (event c : value) (e : exn) :
  normalize event = Throw e ->
  result (handler cfg w event c) = Throw e /\ calls (handler cfg w event c) = [].
Proof.
  intros Hn. rewrite (handler_not_normalized _ _ _ _ _ Hn). split; reflexivity.
Qed.

Lemma null_payload_throws :
  result (handler example_cfg (world_answering assessment_passed) VNull cold_cache)
  = Throw TypeError.
Proof. reflexivity. Qed.

(** ** The credential cache across invocations *)

(** Past the normalization, the handler leaves the cache as the credential
    step left it and calls the secret store as the credential step did. *)
Lemma handler_cache (cfg : Config) (w : World) (event c body : value) :
  normalize event = Normal body ->
  cache (handler cfg w event c) = cache (getRecaptchaApiKey cfg w c) /\
  secret_calls (calls (handler cfg w event c))
  = secret_calls (calls (getRecaptchaApiKey cfg w c)).
Proof.
  intros Hn. rewrite handler_paths, Hn. cbv zeta.
  assert (forall (r : Response) l, secret_calls l = [] ->
            cache {| result := Normal r; cache := cache (getRecaptchaApiKey cfg w c);
                     calls := calls (getRecaptchaApiKey cfg w c) ++ l |}
            = cache (getRecaptchaApiKey cfg w c) /\
            secret_calls
              (calls {| result := Normal r; cache := cache (getRecaptchaApiKey cfg w c);
                        calls := calls (getRecaptchaApiKey cfg w c) ++ l |})
            = secret_calls (calls (getRecaptchaApiKey cfg w c))) as Hstop.
  { intros r l Hl. cbn [cache calls]. rewrite secret_calls_app, Hl, app_nil_r. auto. }
  destruct (result (getRecaptchaApiKey cfg w c)) as [apiKey|e]; [|apply Hstop; reflexivity].
  destruct (Get body _) as [token|e]; [|apply Hstop; reflexivity].
  destruct (https_request w _ _) as [data|e]; [|apply Hstop; reflexivity].
  destruct (response_end _ data) as [res|e]; [|apply Hstop; reflexivity].
  destruct (negb (success res)); [apply Hstop; reflexivity|].
  destruct (js_lt _ _); [apply Hstop; reflexivity|].
  destruct (ses_send w _); apply Hstop; reflexivity.
Qed.

(** With a key in the cache an invocation neither calls the secret store nor
    touches the cache. *)
Lemma warm_invocation (cfg : Config) (w : World) (event c : value) :
  truthy c = true ->
  secret_calls (calls (handler cfg w event c)) = [] /\ cache (handler cfg w event c) = c.
Proof.
  intros Hc. destruct (normalize event) as [body|e] eqn:Hn.
  - destruct (handler_cache cfg w event c body Hn) as [H1 H2].
    rewrite H1, H2, (getRecaptchaApiKey_warm _ _ _ Hc). split; reflexivity.
  - rewrite (handler_not_normalized _ _ _ _ _ Hn). split; reflexivity.
Qed.

Lemma warm_invocations (cfg : Config) (c : value) (reqs : list (World * value)) :
  truthy c = true ->
  Forall (fun o => secret_calls (calls o) = [] /\ cache o = c) (invocations cfg c reqs).
Proof.
  intros Hc. induction reqs as [|[w event] rest IH]; cbn [invocations].
  - constructor.
  - destruct (warm_invocation cfg w event c Hc) as [H1 H2].
    constructor; [split; assumption|]. rewrite H2. exact IH.
Qed.

(** An invocation calls the secret store at most once. *)
Lemma one_fetch_per_invocation (cfg : Config) (w : World) (event c : value) :
  secret_calls (calls (handler cfg w event c)) = [] \/
  secret_calls (calls (handler cfg w event c)) = [RECAPTCHA_API_KEY_SECRET_NAME cfg].
Proof.
  destruct (normalize event) as [body|e] eqn:Hn.
  - destruct (handler_cache cfg w event c body Hn) as [_ H2].
    rewrite H2, getRecaptchaApiKey_calls. destruct (truthy c); auto.
  - rewrite (handler_not_normalized _ _ _ _ _ Hn). auto.
Qed.

(** A fetch that succeeds stores the [SecretString] of the response. *)
Lemma fetched_value_cached (cfg : Config) (w : World) (event c : value)
  (id response : value) :
  In (SecretsManagerSend id) (calls (handler cfg w event c)) ->
  secretsManager_send w id = Normal response ->
  nullish response = false ->
  cache (handler cfg w event c) = OptGet response (js "SecretString").
Proof.
  intros Hin Hsend Hresp.
  destruct (secret_call_inv _ _ _ _ _ Hin) as (Hc & Hid & body & Hn). subst id.
  destruct (handler_cache cfg w event c body Hn) as [H1 _]. rewrite H1.
  rewrite (getRecaptchaApiKey_cold _ _ _ Hc). cbv zeta.
  rewrite Hsend, (Get_defined _ _ Hresp). reflexivity.
Qed.

Lemma secret_calls_In (l : list call) (id : value) :
  In id (secret_calls l) <-> In (SecretsManagerSend id) l.
Proof.
  unfold secret_calls. rewrite in_flat_map. split.
  - intros [x [Hx Hid]]. destruct x; simpl in Hid; try contradiction.
    destruct Hid as [->|[]]. exact Hx.
  - intros H. exists (SecretsManagerSend id). split; [exact H|left; reflexivity].
Qed.

Lemma cached_then_no_fetch (cfg : Config) (reqs : list (World * value)) :
  forall c pre o post,
    invocations cfg c reqs = pre ++ o :: post ->
    truthy (cache o) = true ->
    Forall (fun o' => secret_calls (calls o') = [] /\ cache o' = cache o) post.
Proof.
  induction reqs as [|[w event] rest IH]; intros c pre o post Heq Ho; cbn [invocations] in Heq.
  - destruct pre; discriminate Heq.
  - destruct pre as [|p pre']; cbn [app] in Heq; inversion Heq; subst.
    + apply warm_invocations. exact Ho.
    + eapply IH; eassumption.
Qed.

(** C7. Across the invocations of a warm instance: once the cache holds a
    fetched key, no later invocation calls the secret store and the key
    stays; a fetch that succeeds leaves the [SecretString] of its response in
    the cache, and an invocation fetches at most once; a fetch that fails
    leaves the cache empty, so the credential step of the next invocation
    fetches again; hence, when the secret store answers each fetch with a
    non-empty [SecretString], the whole run makes at most one fetch. *)
Theorem credential_fetched_once (cfg : Config) :
  (forall c reqs pre o post,
     invocations cfg c reqs = pre ++ o :: post ->
     truthy (cache o) = true ->
     Forall (fun o' => secret_calls (calls o') = [] /\ cache o' = cache o) post) /\
  (forall w event c id response,
     In (SecretsManagerSend id) (calls (handler cfg w event c)) ->
     secretsManager_send w id = Normal response ->
     secret_calls (calls (handler cfg w event c)) = [id] /\
     (truthy (OptGet response (js "SecretString")) = true ->
      cache (handler cfg w event c) = OptGet response (js "SecretString") /\
      truthy (cache (handler cfg w event c)) = true)) /\
  (forall w event c id e,
     In (SecretsManagerSend id) (calls (handler cfg w event c)) ->
     secretsManager_send w id = Throw e ->
     cache (handler cfg w event c) = c /\
     truthy (cache (handler cfg w event c)) = false /\
     (forall w', calls (getRecaptchaApiKey cfg w' (cache (handler cfg w event c)))
                 = [SecretsManagerSend (RECAPTCHA_API_KEY_SECRET_NAME cfg)]) /\
     (forall w' event' body', normalize event' = Normal body' ->
        exists rest,
          calls (handler cfg w' event' (cache (handler cfg w event c)))
          = SecretsManagerSend (RECAPTCHA_API_KEY_SECRET_NAME cfg) :: rest)) /\
  (forall c reqs,
     (forall w event, In (w, event) reqs ->
        forall id, exists response,
          secretsManager_send w id = Normal response /\
          truthy (OptGet response (js "SecretString")) = true) ->
     (List.length (flat_map (fun o => secret_calls (calls o)) (invocations cfg c reqs))
      <= 1)%nat).
Proof.
  repeat split.
  - intros c reqs pre o post. apply cached_then_no_fetch.
  - destruct (one_fetch_per_invocation cfg w event c) as [Hnone|Hone].
    + apply secret_calls_In in H. rewrite Hnone in H. contradiction.
    + destruct (secret_call_inv _ _ _ _ _ H) as (_ & -> & _). exact Hone.
  - apply (fetched_value_cached _ _ _ _ _ _ H H0).
    destruct response; try discriminate H1; reflexivity.
  - rewrite (fetched_value_cached _ _ _ _ _ _ H H0); [exact H1|].
    destruct response; try discriminate H1; reflexivity.
  - rewrite (secret_failure _ _ _ _ _ _ H H0). reflexivity.
  - rewrite (secret_failure _ _ _ _ _ _ H H0). cbn [cache].
    apply (secret_call_inv _ _ _ _ _ H).
  - intros w'. rewrite (secret_failure _ _ _ _ _ _ H H0). cbn [cache].
    rewrite getRecaptchaApiKey_calls.
    destruct (secret_call_inv _ _ _ _ _ H) as (-> & _). reflexivity.
  - intros w' event' body' Hn. rewrite (secret_failure _ _ _ _ _ _ H H0). cbn [cache].
    eapply cold_invocation_fetches; [apply (secret_call_inv _ _ _ _ _ H)|eassumption].
  - intros c reqs. revert c.
    induction reqs as [|[w event] rest IH]; intros c Hup; cbn [invocations flat_map].
    + auto.
    + rewrite length_app.
      destruct (one_fetch_per_invocation cfg w event c) as [Hnone|Hone].
      * rewrite Hnone. cbn [List.length plus]. apply IH.
        intros w0 ev0 Hin. apply (Hup w0 ev0). right. exact Hin.
      * rewrite Hone. cbn [List.length].
        assert (In (SecretsManagerSend (RECAPTCHA_API_KEY_SECRET_NAME cfg))
                  (calls (handler cfg w event c))) as Hin.
        { apply secret_calls_In. rewrite Hone. left. reflexivity. }
        destruct (Hup w event (or_introl eq_refl) (RECAPTCHA_API_KEY_SECRET_NAME cfg))
          as (response & Hsend & Htruthy).
        assert (truthy (cache (handler cfg w event c)) = true) as Hwarm.
        { rewrite (fetched_value_cached _ _ _ _ _ _ Hin Hsend); [exact Htruthy|].
          destruct response; try discriminate Htruthy; reflexivity. }
        pose proof (warm_invocations cfg _ rest Hwarm) as Hrest.
        assert (flat_map (fun o => secret_calls (calls o))
                  (invocations cfg (cache (handler cfg w event c)) rest) = []) as Hnil.
        { induction Hrest as [|o l [Ho _] _ IHl]; cbn [flat_map]; [reflexivity|].
          rewrite Ho, IHl. reflexivity. }
        rewrite Hnil. cbn [List.length]. lia.
Qed.

(** On [example_run] the first fetch fails, the second succeeds, and the
    third invocation does not fetch although its secret store is down. *)
Lemma credential_fetched_once_witness :
  map (fun o => secret_calls (calls o)) (invocations example_cfg cold_cache example_run)
  = [[VStr (js "recaptcha/api-key")]; [VStr (js "recaptcha/api-key")]; []].
Proof.
  pose proof (proj1 (credential_fetched_once example_cfg) cold_cache example_run
                [handler example_cfg world_secret_down example_event cold_cache]
                (handler example_cfg (world_answering assessment_passed) example_event
                   cold_cache)
                [handler example_cfg world_secret_down example_event (VStr (js "api-key"))])
    as Hwarm.
  assert (secret_calls
            (calls (handler example_cfg world_secret_down example_event
                      (VStr (js "api-key")))) = []) as H3.
  { assert (Forall
              (fun o' => secret_calls (calls o') = [] /\
                 cache o' = cache (handler example_cfg (world_answering assessment_passed)
                                     example_event cold_cache))
              [handler example_cfg world_secret_down example_event (VStr (js "api-key"))])
      as HF.
    { apply Hwarm; vm_compute; reflexivity. }
    inversion HF as [|o l [Ho _] _]. exact Ho. }
  change (invocations example_cfg cold_cache example_run)
    with [handler example_cfg world_secret_down example_event cold_cache;
          handler example_cfg (world_answering assessment_passed) example_event
            (cache (handler example_cfg world_secret_down example_event cold_cache));
          handler example_cfg world_secret_down example_event
            (cache (handler example_cfg (world_answering assessment_passed) example_event
               (cache (handler example_cfg world_secret_down example_event cold_cache))))].
  cbn [map].
  replace (cache (handler example_cfg (world_answering assessment_passed) example_event
      (cache (handler example_cfg world_secret_down example_event cold_cache))))
    with (VStr (js "api-key")) by (vm_compute; reflexivity).
  rewrite H3. vm_compute. reflexivity.
Defined.

(* ================================================================= *)
(** ** [JSON.parse] after [JSON.stringify] *)

Lemma digit_value_hex_digit (d : N) :
  (d < 16)%N -> digit_value (hex_digit d) = Some (Z.of_N d).
Proof.
  intros H. destruct d as [|p]; [reflexivity|].
  do 4 (try destruct p as [p|p|]); try reflexivity; exfalso; lia.
Qed.

(** [\uXXXX] written by [unicode_escape] is read back by [hex4]. *)
Lemma hex4_unicode_escape (c : N) :
  wf_unit c ->
  hex4 (hex_digit (c / 4096)) (hex_digit ((c / 256) mod 16))
       (hex_digit ((c / 16) mod 16)) (hex_digit (c mod 16)) = Some c.
Proof.
  intros Hc. unfold wf_unit in Hc. unfold hex4.
  assert (c / 4096 < 16)%N as H3 by (apply N.Div0.div_lt_upper_bound; lia).
  assert ((c / 256) mod 16 < 16)%N as H2 by (apply N.mod_lt; lia).
  assert ((c / 16) mod 16 < 16)%N as H1 by (apply N.mod_lt; lia).
  assert (c mod 16 < 16)%N as H0 by (apply N.mod_lt; lia).
  rewrite !digit_value_hex_digit by assumption.
  f_equal.
  pose proof (N.div_mod c 16) as E0.
  pose proof (N.div_mod (c / 16) 16) as E1.
  pose proof (N.div_mod (c / 256) 16) as E2.
  assert (c / 16 / 16 = c / 256)%N as D1 by (rewrite N.Div0.div_div; reflexivity).
  assert (c / 256 / 16 = c / 4096)%N as D2 by (rewrite N.Div0.div_div; reflexivity).
  rewrite D1 in E1. rewrite D2 in E2.
  specialize (E0 ltac:(lia)). specialize (E1 ltac:(lia)). specialize (E2 ltac:(lia)).
  lia.
Qed.

Lemma parse_unicode_escape (c : N) (r : jsstring) :
  wf_unit c ->
  parse_string_body (unicode_escape c ++ r) = cons_fst c (parse_string_body r).
Proof.
  intros Hc. unfold unicode_escape. cbn [app parse_string_body N.eqb Pos.eqb].
  rewrite (hex4_unicode_escape c Hc). reflexivity.
Qed.

Lemma parse_plain_unit (c : N) (r : jsstring) :
  (32 <= c)%N -> c <> 34%N -> c <> 92%N ->
  parse_string_body (c :: r) = cons_fst c (parse_string_body r).
Proof.
  intros H1 H2 H3. cbn [parse_string_body].
  rewrite (proj2 (N.eqb_neq c 34) H2), (proj2 (N.eqb_neq c 92) H3).
  rewrite (proj2 (N.ltb_ge c 32) H1). reflexivity.
Qed.

Lemma parse_quote_unit (c : N) (r : jsstring) :
  wf_unit c ->
  parse_string_body (quote_unit c ++ r) = cons_fst c (parse_string_body r).
Proof.
  intros Hc. unfold quote_unit.
  destruct (N.eqb_spec c 8) as [->|H8]; [reflexivity|].
  destruct (N.eqb_spec c 9) as [->|H9]; [reflexivity|].
  destruct (N.eqb_spec c 10) as [->|H10]; [reflexivity|].
  destruct (N.eqb_spec c 12) as [->|H12]; [reflexivity|].
  destruct (N.eqb_spec c 13) as [->|H13]; [reflexivity|].
  destruct (N.eqb_spec c 34) as [->|H34]; [reflexivity|].
  destruct (N.eqb_spec c 92) as [->|H92]; [reflexivity|].
  destruct ((c <? 32)%N || is_lead_surrogate c || is_trail_surrogate c) eqn:He.
  - apply parse_unicode_escape. assumption.
  - apply orb_false_iff in He. destruct He as [He _].
    apply orb_false_iff in He. destruct He as [He _].
    apply N.ltb_ge in He. apply parse_plain_unit; assumption.
Qed.

Lemma surrogate_plain (c : N) (r : jsstring) :
  is_lead_surrogate c = true \/ is_trail_surrogate c = true ->
  parse_string_body (c :: r) = cons_fst c (parse_string_body r).
Proof.
  unfold is_lead_surrogate, is_trail_surrogate.
  intros [H|H]; apply andb_true_iff in H; destruct H as [H1 H2];
    apply N.leb_le in H1; apply parse_plain_unit; lia.
Qed.

Lemma parse_quote_body_bounded (n : nat) :
  forall s rest, (List.length s <= n)%nat -> wf_string s ->
    parse_string_body (quote_body s ++ 34%N :: rest) = Some (s, rest).
Proof.
  induction n as [|n IH]; intros s rest Hlen Hwf.
  - destruct s; [reflexivity|simpl in Hlen; lia].
  - destruct s as [|c r]; [reflexivity|].
    inversion Hwf as [|c0 r0 Hc Hr]; subst.
    cbn [quote_body]. simpl in Hlen.
    destruct (is_lead_surrogate c) eqn:Hlead.
    + destruct r as [|d r'].
      * rewrite parse_unicode_escape by assumption. reflexivity.
      * destruct (is_trail_surrogate d) eqn:Htrail.
        -- cbn [app]. rewrite surrogate_plain by auto. rewrite surrogate_plain by auto.
           inversion Hr; subst. simpl in Hlen.
           rewrite IH by (assumption || lia). reflexivity.
        -- rewrite <- app_assoc, parse_unicode_escape by assumption.
           rewrite IH by (assumption || lia). reflexivity.
    + rewrite <- app_assoc, parse_quote_unit by assumption.
      rewrite IH by (assumption || lia). reflexivity.
Qed.

Lemma parse_quote_body (s rest : jsstring) :
  wf_string s -> parse_string_body (quote_body s ++ 34%N :: rest) = Some (s, rest).
Proof. apply (parse_quote_body_bounded (List.length s)). lia. Qed.

Lemma stringify_string_object (fields : list (jsstring * jsstring)) :
  JSON_stringify (string_object fields)
  = js "{" ++ join (js ",") (map member fields) ++ js "}".
Proof.
  unfold JSON_stringify, string_object. cbn [SerializeJSONProperty].
  do 3 f_equal.
  induction fields as [|[k v] rest IH]; [reflexivity|].
  cbn [map fst snd SerializeJSONProperty]. rewrite IH. reflexivity.
Qed.

Lemma member_app (k v tail : jsstring) :
  member (k, v) ++ tail
  = 34%N :: quote_body k ++ 34%N :: 58%N :: 34%N :: quote_body v ++ 34%N :: tail.
Proof.
  unfold member, QuoteJSONString. cbn [fst snd].
  change (js ":") with [58%N].
  repeat first [rewrite <- app_assoc | progress cbn [app]]. reflexivity.
Qed.

Lemma member_step (f : nat) (acc : list (jsstring * value)) (k v tail : jsstring) :
  wf_string k -> wf_string v ->
  parse_member (S (S f)) acc (member (k, v) ++ tail) =
  match skip_ws tail with
  | c :: r =>
      if (c =? 125)%N then Some (VObj (CreateDataProperty acc k (VStr v)), r)
      else if (c =? 44)%N then
        parse_member (S f) (CreateDataProperty acc k (VStr v)) (skip_ws r)
      else None
  | [] => None
  end.
Proof.
  intros Hk Hv. rewrite member_app.
  cbn [parse_member]. rewrite (parse_quote_body k _ Hk).
  cbn [skip_ws is_json_ws N.eqb Pos.eqb orb parse_value].
  rewrite (parse_quote_body v _ Hv). reflexivity.
Qed.

Lemma skip_ws_member (kv : jsstring * jsstring) (tail : jsstring) :
  skip_ws (member kv ++ tail) = member kv ++ tail.
Proof. destruct kv as [k v]. rewrite member_app. reflexivity. Qed.

Lemma skip_ws_members (kv : jsstring * jsstring) (rest : list (jsstring * jsstring))
  (tail : jsstring) :
  skip_ws (join (js ",") (map member (kv :: rest)) ++ tail)
  = join (js ",") (map member (kv :: rest)) ++ tail.
Proof.
  destruct rest as [|kv' rest]; cbn [map join].
  - apply skip_ws_member.
  - rewrite <- app_assoc. apply skip_ws_member.
Qed.

Lemma parse_members (fields : list (jsstring * jsstring)) :
  forall kv acc f tail,
    (List.length fields <= f)%nat ->
    fresh_fields acc (kv :: fields) ->
    parse_member (S (S f)) acc (join (js ",") (map member (kv :: fields)) ++ 125%N :: tail)
    = Some (VObj (acc ++ map (fun kv => (fst kv, VStr (snd kv))) (kv :: fields)), tail).
Proof.
  induction fields as [|kv' rest IH]; intros [k v] acc f tail Hf Hfresh;
    destruct Hfresh as (Hkey & Hidx & Hk & Hv & Hrest).
  - cbn [map join]. rewrite (member_step _ _ _ _ _ Hk Hv).
    cbn [skip_ws is_json_ws N.eqb Pos.eqb orb].
    unfold CreateDataProperty. rewrite Hkey, Hidx. reflexivity.
  - change (join (js ",") (map member ((k, v) :: kv' :: rest)))
      with (member (k, v) ++ js "," ++ join (js ",") (map member (kv' :: rest))).
    rewrite <- !app_assoc. rewrite (member_step _ _ _ _ _ Hk Hv).
    change (js "," ++ join (js ",") (map member (kv' :: rest)) ++ 125%N :: tail)
      with (44%N :: (join (js ",") (map member (kv' :: rest)) ++ 125%N :: tail)).
    cbn [skip_ws is_json_ws N.eqb Pos.eqb orb].
    rewrite skip_ws_members.
    unfold CreateDataProperty. rewrite Hkey, Hidx.
    destruct f as [|f]; [simpl in Hf; lia|].
    rewrite (IH kv' _ f tail); [|simpl in Hf; lia|exact Hrest].
    rewrite <- app_assoc. reflexivity.
Qed.

Lemma join_length (sep : jsstring) (parts : list jsstring) :
  Forall (fun p => (1 <= List.length p)%nat) parts ->
  (List.length parts <= List.length (join sep parts))%nat.
Proof.
  induction parts as [|p rest IH]; intros Hall; [simpl; lia|].
  inversion Hall as [|p0 rest0 Hp Hrest]; subst.
  destruct rest as [|p' rest'].
  - cbn [join List.length]. lia.
  - change (join sep (p :: p' :: rest')) with (p ++ sep ++ join sep (p' :: rest')).
    rewrite !length_app. specialize (IH Hrest). cbn [List.length] in *. lia.
Qed.

Lemma members_length (fields : list (jsstring * jsstring)) :
  (List.length fields <= List.length (join (js ",") (map member fields)))%nat.
Proof.
  rewrite <- (length_map member fields). apply join_length.
  apply Forall_forall. intros p Hp. apply in_map_iff in Hp.
  destruct Hp as [[k v] [<- _]].
  unfold member, QuoteJSONString. cbn [fst snd app List.length]. lia.
Qed.

Lemma members_head (kv : jsstring * jsstring) (rest : list (jsstring * jsstring))
  (tail : jsstring) :
  exists x, join (js ",") (map member (kv :: rest)) ++ tail = 34%N :: x.
Proof.
  destruct kv as [k v]. destruct rest as [|kv' rest'].
  - cbn [map join]. rewrite member_app. eexists. reflexivity.
  - change (join (js ",") (map member ((k, v) :: kv' :: rest')))
      with (member (k, v) ++ js "," ++ join (js ",") (map member (kv' :: rest'))).
    rewrite <- !app_assoc. rewrite member_app. eexists. reflexivity.
Qed.

(** [JSON.parse] inverts [JSON.stringify] on objects whose values are strings. *)
Lemma parse_stringify_string_object (fields : list (jsstring * jsstring)) :
  fresh_fields [] fields ->
  JSON_parse (JSON_stringify (string_object fields)) = Normal (string_object fields).
Proof.
  intros Hfresh. rewrite stringify_string_object. unfold JSON_parse.
  destruct fields as [|kv rest]; [vm_compute; reflexivity|].
  change (js "{" ++ join (js ",") (map member (kv :: rest)) ++ js "}")
    with (123%N :: (join (js ",") (map member (kv :: rest)) ++ [125%N])).
  pose proof (members_length (kv :: rest)) as Hlen.
  destruct (members_head kv rest [125%N]) as [x Hx].
  cbn [List.length]. rewrite length_app. cbn [List.length].
  destruct (List.length (join (js ",") (map member (kv :: rest)))) as [|n] eqn:Hn;
    [cbn [List.length] in Hlen; lia|].
  replace (S n + 1)%nat with (S (S n)) by lia.
  rewrite Hx. cbn [parse_value skip_ws is_json_ws N.eqb Pos.eqb orb]. rewrite <- Hx.
  rewrite (parse_members rest kv [] (S n) []); [reflexivity| |exact Hfresh].
  cbn [List.length] in Hlen. lia.
Qed.

Lemma str_eqb_eq (a b : jsstring) : str_eqb a b = true <-> a = b.
Proof.
  revert b. induction a as [|x a IH]; intros [|y b]; cbn [str_eqb];
    try (split; [discriminate|discriminate]); [tauto|].
  rewrite andb_true_iff, N.eqb_eq, IH. split.
  - intros [-> ->]. reflexivity.
  - intros H. inversion H. auto.
Qed.

Lemma str_eqb_neq (a b : jsstring) : a <> b -> str_eqb a b = false.
Proof.
  intros H. destruct (str_eqb a b) eqn:E; [|reflexivity].
  apply str_eqb_eq in E. contradiction.
Qed.

Lemma has_key_app (k : jsstring) (a b : list (jsstring * value)) :
  has_key k (a ++ b) = has_key k a || has_key k b.
Proof.
  induction a as [|[k' v] a IH]; cbn [app has_key]; [reflexivity|].
  rewrite IH, orb_assoc. reflexivity.
Qed.

Lemma fresh_fields_intro (fields : list (jsstring * jsstring)) :
  forall acc,
    Forall (plain_field acc) fields ->
    NoDup (map fst fields) ->
    fresh_fields acc fields.
Proof.
  induction fields as [|[k v] rest IH]; intros acc Hall Hnd; cbn [fresh_fields]; [exact I|].
  inversion Hall as [|kv0 rest0 (Hidx & Hk & Hv & Hkey) Hrest]; subst.
  cbn [map fst] in Hnd. inversion Hnd as [|k0 ks Hnotin Hnd']; subst.
  cbn [fst snd] in *. repeat split; try assumption.
  apply IH; [|assumption].
  apply Forall_forall. intros [k' v'] Hin.
  destruct (proj1 (Forall_forall _ _) Hrest _ Hin) as (Hidx' & Hk' & Hv' & Hkey').
  unfold plain_field. cbn [fst snd] in *. repeat split; try assumption.
  rewrite has_key_app, Hkey'. cbn [has_key orb].
  rewrite str_eqb_neq; [reflexivity|].
  intros ->. apply Hnotin. apply in_map_iff. exists (k, v'). auto.
Qed.

Lemma Submission_fields_plain (s : Submission.t) :
  Submission.wf s ->
  Forall (plain_field []) (Submission.fields s) /\ NoDup (map fst (Submission.fields s)).
Proof.
  intros (H1 & H2 & H3 & H4 & H5). split.
  - assert (forall k : string, wf_string (js k)) as Hjs.
    { intros k. unfold js. apply Forall_forall. intros c Hc. apply in_map_iff in Hc.
      destruct Hc as [a [<- _]]. unfold wf_unit.
      pose proof (N_ascii_bounded a). lia. }
    unfold Submission.fields.
    repeat (constructor; [unfold plain_field; cbn [fst snd];
                          repeat split; solve [reflexivity | assumption | apply Hjs]|]).
    constructor.
  - cbn [Submission.fields map fst].
    repeat (constructor; [cbn [In]; intros H; repeat destruct H as [H|H];
                          try discriminate H; contradiction|]).
    constructor.
Qed.

Lemma lookup_string_object (props : list (jsstring * jsstring)) (k v : jsstring) :
  NoDup (map fst props) ->
  In (k, v) props ->
  lookup k (map (fun kv => (fst kv, VStr (snd kv))) props) = VStr v.
Proof.
  induction props as [|[k' v'] rest IH]; intros Hnd Hin; [contradiction|].
  cbn [map fst snd lookup] in *. inversion Hnd as [|k0 ks Hnotin Hnd']; subst.
  destruct Hin as [Heq|Hin].
  - inversion Heq; subst. rewrite (proj2 (str_eqb_eq k k) eq_refl). reflexivity.
  - rewrite str_eqb_neq; [apply IH; assumption|].
    intros ->. apply Hnotin. apply in_map_iff. exists (k', v). auto.
Qed.

Lemma lookup_absent (props : list (jsstring * jsstring)) (k : jsstring) :
  ~ In k (map fst props) ->
  lookup k (map (fun kv => (fst kv, VStr (snd kv))) props) = VUndefined.
Proof.
  induction props as [|[k' v'] rest IH]; intros Hnotin; [reflexivity|].
  cbn [map fst snd lookup In] in *.
  rewrite str_eqb_neq.
  - apply IH. intros Hin. apply Hnotin. right. exact Hin.
  - intros ->. apply Hnotin. left. reflexivity.
Qed.

(** C8. Normalization round trip. For every submission [s] (an object with
    the five string properties, in any property order), the envelope whose
    [body] is the JSON-encoded string of [s] and the envelope whose [body] is
    the object [s] are normalized to the same value, the object [s] itself,
    from which the five fields read back; the same holds when [s] is the
    envelope. *)
Theorem normalization_roundtrip (s : Submission.t) (props : list (jsstring * jsstring))
  (envelope_text envelope_object : value) :
  Submission.wf s ->
  Permutation props (Submission.fields s) ->
  OptGet envelope_text (js "body") = VStr (JSON_stringify (string_object props)) ->
  OptGet envelope_object (js "body") = string_object props ->
  normalize envelope_text = Normal (string_object props) /\
  normalize envelope_object = Normal (string_object props) /\
  normalize (string_object props) = Normal (string_object props) /\
  OptGet (string_object props) (js "name") = VStr (Submission.name s) /\
  OptGet (string_object props) (js "email") = VStr (Submission.email s) /\
  OptGet (string_object props) (js "subject") = VStr (Submission.subject s) /\
  OptGet (string_object props) (js "message") = VStr (Submission.message s) /\
  OptGet (string_object props) (js "recaptchaToken") = VStr (Submission.recaptchaToken s).
Proof.
  intros Hwf Hperm Htext Hobject.
  destruct (Submission_fields_plain s Hwf) as [Hplain Hnd].
  assert (NoDup (map fst props)) as Hnd'.
  { apply (Permutation_NoDup (l := map fst (Submission.fields s))); [|exact Hnd].
    apply Permutation_map, Permutation_sym, Hperm. }
  assert (fresh_fields [] props) as Hfresh.
  { apply fresh_fields_intro; [|exact Hnd'].
    apply (Permutation_Forall (Permutation_sym Hperm)). exact Hplain. }
  assert (forall k v, In (k, v) (Submission.fields s) ->
            OptGet (string_object props) k = VStr v) as Hread.
  { intros k v Hin. unfold string_object. cbn [OptGet].
    apply lookup_string_object; [exact Hnd'|].
    apply (Permutation_in _ (Permutation_sym Hperm)). exact Hin. }
  split; [|split; [|split]].
  - unfold normalize. rewrite Get_defined.
    + rewrite Htext. cbv [cbind]. apply parse_stringify_string_object. exact Hfresh.
    + destruct envelope_text; try discriminate Htext; reflexivity.
  - unfold normalize. rewrite Get_defined.
    + rewrite Hobject. reflexivity.
    + destruct envelope_object; try discriminate Hobject; reflexivity.
  - unfold normalize. rewrite Get_defined by reflexivity.
    unfold string_object at 1. cbn [OptGet]. rewrite lookup_absent; [reflexivity|].
    intros Hin.
    assert (In (js "body") (map fst (Submission.fields s))) as Hin'.
    { apply (Permutation_in _ (Permutation_map fst Hperm)). exact Hin. }
    cbn [Submission.fields map fst In] in Hin'.
    repeat destruct Hin' as [Hin'|Hin']; try discriminate Hin'; contradiction.
  - repeat split; apply Hread; cbn [Submission.fields In]; auto 10.
Qed.

(** The Function URL event of the example and the direct invocation with the
    same submission. *)
Lemma normalization_roundtrip_witness :
  normalize example_event = Normal example_submission /\
  normalize (VObj [(js "body", example_submission)]) = Normal example_submission.
Proof.
  destruct (normalization_roundtrip example_form (Submission.fields example_form)
              example_event (VObj [(js "body", example_submission)]))
    as (Htext & Hobject & _).
  - unfold Submission.wf, wf_string, wf_unit. cbn. repeat split; repeat constructor.
  - apply Permutation_refl.
  - vm_compute. reflexivity.
  - reflexivity.
  - split; [exact Htext | exact Hobject].
Defined.

(* ================================================================= *)
(** ** The runtime fragment on known values *)

(** Decimal literals are rounded to the nearest Number, ties to even. *)
Example decimal_to_Number_known :
  map (fun me => decimal_to_Number false (fst me) (snd me))
    [(5, -1); (1, -1); (3, -1); (9, -1); (1, 23); (5, -324);
     (17976931348623157, 292); (9007199254740993, 0); (9007199254740995, 0);
     (1, 400); (1, -400)]
  = [0.5; 0.1; 0.3; 0.9; 1e23; 5e-324; 1.7976931348623157e308;
     9007199254740992; 9007199254740996; infinity; 0]%float.
Proof. vm_compute. reflexivity. Qed.

Example NumberToString_known :
  map NumberToString
    [0.5; 0.1; 0.9; 100; 123.456; 1e21; 1e-7; 0.000001; 5e-324;
     1.7976931348623157e308; 0.30000000000000004; 123456789012345680000;
     -1.5; 0; -0; nan; infinity; neg_infinity]%float
  = map js
    ["0.5"; "0.1"; "0.9"; "100"; "123.456"; "1e+21"; "1e-7"; "0.000001"; "5e-324";
     "1.7976931348623157e+308"; "0.30000000000000004"; "123456789012345680000";
     "-1.5"; "0"; "0"; "NaN"; "Infinity"; "-Infinity"]%string.
Proof. vm_compute. reflexivity. Qed.

Example StringToNumber_known :
  map (fun s => NumberToString (StringToNumber (js s)))
    ["0.5"; " 12 "; ""; "0x1F"; "1e3"; ".5"; "5."; "-Infinity"; "1e"; "12px"; "abc"]%string
  = map js ["0.5"; "12"; "0"; "31"; "1000"; "0.5"; "5"; "-Infinity"; "NaN"; "NaN"; "NaN"]%string.
Proof. vm_compute. reflexivity. Qed.

Example parseFloat_known :
  map (fun s => NumberToString (parseFloat (js s)))
    ["0.5"; " 0.7"; "0.25abc"; "1e"; ".5"; "-Infinityx"; ""; "abc"]%string
  = map js ["0.5"; "0.7"; "0.25"; "1"; "0.5"; "-Infinity"; "NaN"; "NaN"]%string.
Proof. vm_compute. reflexivity. Qed.

(** Relational comparison of a score of any type with a threshold. *)
Example js_lt_known :
  map (fun v => js_lt v 0.5%float)
    [VNum 0.3%float; VNum 0.5%float; VNum 0.9%float; VUndefined; VNull; VBool true;
     VStr (js "0.3"); VStr (js "high"); VArr []; VObj []]
  = [true; false; false; false; true; false; true; false; true; false].
Proof. vm_compute. reflexivity. Qed.

Example truthy_known :
  map truthy
    [VUndefined; VNull; VBool false; VNum zero; VNum nan; VStr []; VStr (js "0");
     VNum 0.5%float; VArr []; VObj []]
  = [false; false; false; false; false; false; true; true; true; true].
Proof. vm_compute. reflexivity. Qed.

Example JSON_parse_known :
  JSON_parse assessment_passed
  = Normal (VObj [(js "tokenProperties",
                   VObj [(js "valid", VBool true);
                         (js "action", VStr (js "contact_submit"))]);
                  (js "riskAnalysis", VObj [(js "score", VNum 0.9%float)])]) /\
  JSON_parse (json_text " [1, 2.5e1, 'aA\n', null, {'k': [], 'k': false}] ")
  = Normal (VArr [VNum 1%float; VNum 25%float; VStr [97; 65; 10]%N; VNull;
                  VObj [(js "k", VBool false)]]) /\
  map (fun s => JSON_parse (json_text s))
    [""; "{"; "[1,]"; "{'a':1,}"; "01"; "1."; "+1"; "'a"; "tru"; "nul"; "{a:1}"; "1 2"]%string
  = repeat (Throw SyntaxError) 12.
Proof. repeat split; vm_compute; reflexivity. Qed.

Example JSON_stringify_known :
  JSON_stringify
    (VObj [(js "event",
            VObj [(js "token", VUndefined); (js "siteKey", VStr (js "k"));
                  (js "n", VNum nan); (js "a", VArr [VUndefined; VNum 1.5%float]);
                  (js "s", VStr [34; 92; 10; 55357; 56832; 55357]%N)])])
  = json_text "{'event':{'siteKey':'k','n':null,'a':[null,1.5],'s':'\'\\\n"
    ++ [55357; 56832]%N ++ json_text "\ud83d'}}".
Proof. vm_compute. reflexivity. Qed.

(** The five responses, as text. *)
Example response_bodies :
  map body [email_sent; verification_failed; submission_blocked;
            recaptcha_service_error; email_service_error]
  = map json_text
    ["{'result':'Success'}";
     "{'result':'Failed','reason':'reCAPTCHA verification failed'}";
     "{'result':'Failed','reason':'Submission blocked'}";
     "{'result':'Failed','reason':'reCAPTCHA service error'}";
     "{'result':'Failed','reason':'Email service error'}"]%string.
Proof. vm_compute. reflexivity. Qed.

(** The calls of the example invocation, in order. *)
Example example_invocation_calls :
  calls (handler example_cfg (world_answering assessment_passed) example_event cold_cache)
  = [SecretsManagerSend (VStr (js "recaptcha/api-key"));
     HttpsRequest
       {| hostname := js "recaptchaenterprise.googleapis.com";
          port := 443;
          path := js "/v1/projects/example-project/assessments?key=api-key";
          method := js "POST";
          header_Content_Type := js "application/json";
          header_Content_Length := 84 |}
       (json_text
          "{'event':{'token':'token-1','siteKey':'site-key','expectedAction':'contact_submit'}}");
     SesSend
       {| ToAddresses := [VStr (js "owner@example.org")];
          Body_Text_Data :=
            js "From: Ada" ++ [10; 10]%N ++ js "Email: ada@example.org" ++ [10; 10]%N
            ++ js "Subject: Hello" ++ [10; 10]%N ++ js "Message: A first message.";
          Body_Text_Charset := js "UTF-8";
          Subject_Data := VStr (js "Contact Form Submission");
          Subject_Charset := js "UTF-8";
          Source := VStr (js "noreply@example.org") |}].
Proof. vm_compute. reflexivity. Qed.

(* ================================================================= *)
(** ** Further properties of the handler *)

(** X1. An invocation calls each collaborator at most once, in the order
    secret store, verification service, email service, and it sends an email
    only after a verification call. *)
Theorem call_discipline (cfg : Config) (w : World) (event c : value) :
  calls (handler cfg w event c)
  = map SecretsManagerSend (secret_calls (calls (handler cfg w event c)))
    ++ map (fun ob => HttpsRequest (fst ob) (snd ob))
         (verify_calls (calls (handler cfg w event c)))
    ++ map SesSend (email_calls (calls (handler cfg w event c))) /\
  (List.length (secret_calls (calls (handler cfg w event c))) <= 1)%nat /\
  (List.length (verify_calls (calls (handler cfg w event c))) <= 1)%nat /\
  (List.length (email_calls (calls (handler cfg w event c))) <= 1)%nat /\
  (email_calls (calls (handler cfg w event c)) <> [] ->
   verify_calls (calls (handler cfg w event c)) <> []).
Proof.
  rewrite handler_paths.
  destruct (normalize event) as [body|e];
    [|cbn [calls secret_calls verify_calls email_calls flat_map map app List.length];
      repeat split; auto; intros H; exact H].
  cbv zeta. rewrite getRecaptchaApiKey_calls.
  walk cfg w c body; destruct (truthy c);
    cbn [calls secret_calls verify_calls email_calls flat_map map app fst snd List.length];
    repeat split; auto; intros H; try discriminate; try (exfalso; apply H; reflexivity).
Qed.

(** Where an email call comes from. *)
Lemma email_call_inv (cfg : Config) (w : World) (event c : value) (p : SendEmailParams) :
  In (SesSend p) (calls (handler cfg w event c)) ->
  exists body op rb data res,
    normalize event = Normal body /\
    p = submission_params cfg body /\
    In (HttpsRequest op rb) (calls (handler cfg w event c)) /\
    https_request w op rb = Normal data /\
    response_end (js "contact_submit") data = Normal res /\
    success res = true /\
    js_lt (score res) (RECAPTCHA_SCORE_THRESHOLD cfg) = false.
Proof.
  rewrite handler_paths.
  destruct (normalize event) as [body|e]; [|simpl; contradiction].
  cbv zeta. rewrite getRecaptchaApiKey_calls.
  walk cfg w c body; destruct (truthy c); cbn [calls app In]; intros H;
    repeat (destruct H as [H|H]; try discriminate H); try contradiction;
    inversion H; subst;
    exists body; do 4 eexists;
    (split; [reflexivity|]); (split; [reflexivity|]);
    (split; [cbn; auto|]); (split; [eassumption|]); (split; [eassumption|]); auto.
Qed.

(** X2. No email without a passed verification: an email call is made only
    when the verification service answered this invocation with JSON that
    carries no error field, a valid token and the action "contact_submit",
    and whose score is not below the threshold; the message is the one built
    from the normalized submission. *)
Theorem email_requires_passed_verification (cfg : Config) (w : World) (event c : value)
  (p : SendEmailParams) :
  In (SesSend p) (calls (handler cfg w event c)) ->
  exists body op rb data response,
    normalize event = Normal body /\
    p = submission_params cfg body /\
    In (HttpsRequest op rb) (calls (handler cfg w event c)) /\
    https_request w op rb = Normal data /\
    JSON_parse data = Normal response /\
    has_error response = false /\
    tokenValid response = true /\
    actionMatches response (js "contact_submit") = true /\
    js_lt (riskScore response) (RECAPTCHA_SCORE_THRESHOLD cfg) = false.
Proof.
  intros Hin.
  destruct (email_call_inv _ _ _ _ _ Hin)
    as (body & op & rb & data & res & Hn & Hp & Hv & Hreply & Hres & Hs & Hlt).
  destruct (JSON_parse data) as [response|e] eqn:Hparse;
    [|unfold response_end in Hres; rewrite Hparse in Hres; discriminate Hres].
  rewrite (response_end_cases _ _ _ Hparse) in Hres.
  destruct (nullish response); [discriminate Hres|].
  destruct (has_error response) eqn:He; [inversion Hres; subst; discriminate Hs|].
  destruct (tokenValid response) eqn:Hvalid; cbn [negb] in Hres;
    [|inversion Hres; subst; discriminate Hs].
  destruct (actionMatches response (js "contact_submit")) eqn:Ha; cbn [negb] in Hres;
    [|inversion Hres; subst; discriminate Hs].
  inversion Hres; subst. cbn [score] in Hlt.
  exists body, op, rb, data, response. repeat split; assumption.
Qed.

Lemma email_requires_passed_verification_witness :
  exists response,
    JSON_parse assessment_passed = Normal response /\
    tokenValid response = true /\
    js_lt (riskScore response) (RECAPTCHA_SCORE_THRESHOLD example_cfg) = false.
Proof.
  destruct (email_requires_passed_verification example_cfg
              (world_answering assessment_passed) example_event cold_cache
              (submission_params example_cfg example_submission))
    as (body & op & rb & data & response & _ & _ & _ & Hreply & Hparse & _ & Hv & _ & Hlt).
  - vm_compute. right. right. left. reflexivity.
  - cbn in Hreply. inversion Hreply; subst data.
    exists response. split; [exact Hparse|]. split; [exact Hv | exact Hlt].
Defined.

(** X3. The envelope of every email is fixed by the configuration: the one
    recipient is RECEIVER_EMAIL, the source is SENDER_EMAIL, the subject line
    is EMAIL_SUBJECT and both charsets are UTF-8, whatever the submission
    holds; the submission reaches the text of the message only. *)
Theorem email_envelope_from_configuration (cfg : Config) (w : World) (event c : value)
  (p : SendEmailParams) :
  In (SesSend p) (calls (handler cfg w event c)) ->
  ToAddresses p = [RECEIVER cfg] /\
  Source p = SENDER cfg /\
  Subject_Data p = SUBJECT cfg /\
  Body_Text_Charset p = js "UTF-8" /\
  Subject_Charset p = js "UTF-8".
Proof.
  intros Hin.
  destruct (email_call_inv _ _ _ _ _ Hin) as (body & op & rb & data & res & _ & -> & _).
  repeat split.
Qed.

Lemma email_envelope_from_configuration_witness :
  ToAddresses (submission_params example_cfg example_submission)
    = [VStr (js "owner@example.org")] /\
  Source (submission_params example_cfg example_submission)
    = VStr (js "noreply@example.org").
Proof.
  destruct (email_envelope_from_configuration example_cfg
              (world_answering assessment_passed) example_event cold_cache
              (submission_params example_cfg example_submission))
    as (Hto & Hsrc & _).
  - vm_compute. right. right. left. reflexivity.
  - split; [exact Hto | exact Hsrc].
Defined.

Lemma JSON_parse_throws (text : jsstring) (e : exn) :
  JSON_parse text = Throw e -> e = SyntaxError.
Proof.
  unfold JSON_parse. destruct (parse_value _ text) as [[v r]|].
  - destruct (skip_ws r); intros H; inversion H; reflexivity.
  - intros H; inversion H; reflexivity.
Qed.

Lemma normalize_throws (event : value) (e : exn) :
  normalize event = Throw e ->
  (nullish event = true /\ e = TypeError) \/
  (exists text, OptGet event (js "body") = VStr text /\
                JSON_parse text = Throw SyntaxError /\ e = SyntaxError).
Proof.
  unfold normalize. destruct (Get event (js "body")) as [b|e0] eqn:Hget; cbv [cbind].
  - apply Get_Normal_inv in Hget. destruct Hget as [_ ->].
    destruct (OptGet event (js "body")) as [| |b|x|text|l|l] eqn:Hb;
      try (destruct (truthy _); discriminate).
    intros Hp. pose proof (JSON_parse_throws _ _ Hp) as ->.
    right. exists text. auto.
  - apply Get_Throw_inv in Hget. destruct Hget as [Hn ->].
    intros H. inversion H. left. auto.
Qed.

(** X4. Only the normalization lets an exception escape: when the handler
    throws, the normalization threw that exception, which is the TypeError of
    reading [body] on the payload [null] or the SyntaxError of [JSON.parse]
    on a [body] string that is not JSON; no collaborator has been called and
    the cache is untouched. Every failure after the normalization is
    answered with a response. *)
Theorem escaping_exceptions (cfg : Config) (w : World) (event c : value) (e : exn) :
  result (handler cfg w event c) = Throw e ->
  normalize event = Throw e /\
  calls (handler cfg w event c) = [] /\
  cache (handler cfg w event c) = c /\
  ((nullish event = true /\ e = TypeError) \/
   (exists text, OptGet event (js "body") = VStr text /\
                 JSON_parse text = Throw SyntaxError /\ e = SyntaxError)).
Proof.
  rewrite handler_paths.
  destruct (normalize event) as [body|e0] eqn:Hn.
  - cbv zeta. walk cfg w c body; cbn [result]; intros H; discriminate H.
  - cbn [result cache calls]. intros H. inversion H; subst.
    repeat split. apply normalize_throws. assumption.
Qed.

Lemma escaping_exceptions_witness :
  calls (handler example_cfg (world_answering assessment_passed) malformed_event cold_cache)
    = [] /\
  cache (handler example_cfg (world_answering assessment_passed) malformed_event cold_cache)
    = cold_cache.
Proof.
  destruct (escaping_exceptions example_cfg (world_answering assessment_passed)
              malformed_event cold_cache SyntaxError) as (_ & Hcalls & Hcache & _).
  - vm_compute. reflexivity.
  - split; [exact Hcalls | exact Hcache].
Defined.

(** X6. A submission that is the JSON text [null]: the read of
    [body.recaptchaToken] throws inside the first [try], so the handler
    answers 500 "reCAPTCHA service error" without calling the verification
    or the email service, after having called the secret store when the
    cache held no key. *)
Theorem null_submission (cfg : Config) (w : World) (event c : value) (text : jsstring) :
  OptGet event (js "body") = VStr text ->
  JSON_parse text = Normal VNull ->
  result (handler cfg w event c)
    = Normal (respond 500 (failed_body (js "reCAPTCHA service error"))) /\
  verify_calls (calls (handler cfg w event c)) = [] /\
  email_calls (calls (handler cfg w event c)) = [] /\
  secret_calls (calls (handler cfg w event c))
    = (if truthy c then [] else [RECAPTCHA_API_KEY_SECRET_NAME cfg]).
Proof.
  intros Hbody Hparse.
  assert (normalize event = Normal VNull) as Hn.
  { unfold normalize. rewrite Get_defined.
    - rewrite Hbody. exact Hparse.
    - destruct event; try discriminate Hbody; reflexivity. }
  rewrite handler_paths, Hn. cbv zeta. rewrite getRecaptchaApiKey_calls.
  destruct (result (getRecaptchaApiKey cfg w c)); cbn [Get result calls];
    destruct (truthy c); repeat split.
Qed.

Lemma null_submission_witness :
  result (handler example_cfg (world_answering assessment_passed)
            (VObj [(js "body", VStr (js "null"))]) cold_cache)
    = Normal (respond 500 (failed_body (js "reCAPTCHA service error"))) /\
  secret_calls (calls (handler example_cfg (world_answering assessment_passed)
                         (VObj [(js "body", VStr (js "null"))]) cold_cache))
    = [VStr (js "recaptcha/api-key")].
Proof.
  destruct (null_submission example_cfg (world_answering assessment_passed)
              (VObj [(js "body", VStr (js "null"))]) cold_cache (js "null"))
    as (Hr & _ & _ & Hs).
  - reflexivity.
  - vm_compute. reflexivity.
  - split; [exact Hr | exact Hs].
Defined.

(** The credential step returns what it leaves in the cache. *)
Lemma credential_result_cached (cfg : Config) (w : World) (c k : value) :
  result (getRecaptchaApiKey cfg w c) = Normal k ->
  cache (getRecaptchaApiKey cfg w c) = k.
Proof.
  destruct (truthy c) eqn:Hc.
  - rewrite (getRecaptchaApiKey_warm _ _ _ Hc). cbn. intros H. inversion H. reflexivity.
  - rewrite (getRecaptchaApiKey_cold _ _ _ Hc). cbv zeta.
    destruct (secretsManager_send w _) as [response|e]; [|discriminate].
    destruct (Get response _); cbn; intros H; inversion H; reflexivity.
Qed.

(** X8. The verification request is a POST to port 443 of
    recaptchaenterprise.googleapis.com whose path names the configured
    project and carries, as the [key] parameter, the very value the
    invocation leaves in the credential cache (fetched or found there),
    converted to a string and written as it is; the Content-Length is the
    UTF-8 length of the body. *)
Theorem verification_request_options (cfg : Config) (w : World) (event c : value)
  (op : RequestOptions) (rb : jsstring) :
  In (HttpsRequest op rb) (calls (handler cfg w event c)) ->
  hostname op = js "recaptchaenterprise.googleapis.com" /\
  port op = 443 /\
  method op = js "POST" /\
  path op = js "/v1/projects/" ++ ToString (RECAPTCHA_PROJECT_ID cfg)
            ++ js "/assessments?key=" ++ ToString (cache (handler cfg w event c)) /\
  header_Content_Type op = js "application/json" /\
  header_Content_Length op = Buffer_byteLength rb.
Proof.
  intros Hin.
  destruct (verify_call_inv _ _ _ _ _ _ Hin)
    as (body & apiKey & token & Hn & Hk & Ht & Hrb & Hop).
  destruct (handler_cache cfg w event c body Hn) as [Hc _].
  rewrite Hc, (credential_result_cached _ _ _ _ Hk). subst op. repeat split.
Qed.

Lemma verification_request_options_witness :
  path example_options = js "/v1/projects/example-project/assessments?key=api-key".
Proof.
  destruct (verification_request_options example_cfg (world_answering assessment_passed)
              example_event cold_cache example_options example_requestBody)
    as (_ & _ & _ & Hpath & _).
  - vm_compute. right. left. reflexivity.
  - rewrite Hpath. vm_compute. reflexivity.
Defined.

(** X9. A fetch that succeeds with a response that has no [SecretString], or
    an empty one, leaves a falsy value in the cache: the truthiness test of
    line 23 does not retain it, and every later invocation whose payload is
    normalized calls the secret store again. *)
Theorem empty_secret_not_retained (cfg : Config) (w : World) (event c : value)
  (id response : value) :
  In (SecretsManagerSend id) (calls (handler cfg w event c)) ->
  secretsManager_send w id = Normal response ->
  nullish response = false ->
  truthy (OptGet response (js "SecretString")) = false ->
  cache (handler cfg w event c) = OptGet response (js "SecretString") /\
  truthy (cache (handler cfg w event c)) = false /\
  (forall w' event' body', normalize event' = Normal body' ->
     exists rest,
       calls (handler cfg w' event' (cache (handler cfg w event c)))
       = SecretsManagerSend (RECAPTCHA_API_KEY_SECRET_NAME cfg) :: rest).
Proof.
  intros Hin Hsend Hresp Hfalsy.
  rewrite (fetched_value_cached _ _ _ _ _ _ Hin Hsend Hresp).
  repeat split; [assumption|].
  intros w' event' body' Hn. eapply cold_invocation_fetches; eassumption.
Qed.

Lemma empty_secret_not_retained_witness :
  map (fun o => secret_calls (calls o))
    (invocations example_cfg cold_cache
       [(world_binary_secret assessment_passed, example_event);
        (world_binary_secret assessment_passed, example_event)])
  = [[VStr (js "recaptcha/api-key")]; [VStr (js "recaptcha/api-key")]] /\
  cache (handler example_cfg (world_binary_secret assessment_passed) example_event
           cold_cache) = VUndefined.
Proof.
  destruct (empty_secret_not_retained example_cfg (world_binary_secret assessment_passed)
              example_event cold_cache (VStr (js "recaptcha/api-key"))
              (VObj [(js "SecretBinary", VStr (js "a2V5"))]))
    as (Hcache & _ & _).
  - vm_compute. left. reflexivity.
  - reflexivity.
  - reflexivity.
  - reflexivity.
  - split; [vm_compute; reflexivity | exact Hcache].
Defined.

(** X10. The cache is transparent: an invocation that fetches the key [key]
    returns what the same invocation returns when it finds [key] in the
    cache, and makes the same calls after its fetch; both leave [key] in the
    cache. *)
Theorem cache_transparency (cfg : Config) (w : World) (event c key response body : value) :
  truthy c = false ->
  truthy key = true ->
  secretsManager_send w (RECAPTCHA_API_KEY_SECRET_NAME cfg) = Normal response ->
  OptGet response (js "SecretString") = key ->
  normalize event = Normal body ->
  handler cfg w event c
  = {| result := result (handler cfg w event key);
       cache := key;
       calls := SecretsManagerSend (RECAPTCHA_API_KEY_SECRET_NAME cfg)
                :: calls (handler cfg w event key) |} /\
  cache (handler cfg w event key) = key.
Proof.
  intros Hc Hkey Hsend Hsecret Hn.
  assert (nullish response = false) as Hresp.
  { destruct response; try reflexivity; subst key; discriminate Hkey. }
  rewrite !handler_paths, Hn. cbv zeta.
  rewrite (getRecaptchaApiKey_cold _ _ _ Hc), (getRecaptchaApiKey_warm _ _ _ Hkey).
  cbv zeta. rewrite Hsend, (Get_defined _ _ Hresp), Hsecret. cbn [result cache calls].
  destruct (Get body (js "recaptchaToken")) as [token|e]; [|split; reflexivity].
  destruct (https_request w _ _) as [data|e]; [|split; reflexivity].
  destruct (response_end _ data) as [res|e]; [|split; reflexivity].
  destruct (negb (success res)); [split; reflexivity|].
  destruct (js_lt _ _); [split; reflexivity|].
  destruct (ses_send w _); split; reflexivity.
Qed.

Lemma cache_transparency_witness :
  result (handler example_cfg (world_answering assessment_passed) example_event cold_cache)
  = result (handler example_cfg (world_answering assessment_passed) example_event
              (VStr (js "api-key"))).
Proof.
  destruct (cache_transparency example_cfg (world_answering assessment_passed)
              example_event cold_cache (VStr (js "api-key")) secret_response
              example_submission) as (Heq & _).
  - reflexivity.
  - reflexivity.
  - reflexivity.
  - reflexivity.
  - vm_compute. reflexivity.
  - rewrite Heq. reflexivity.
Defined.

(** X13. No field of the submission is required: in the text of an email,
    each of the four fields that the normalized submission lacks reads
    [undefined]. *)
Theorem missing_fields_read_undefined (cfg : Config) (w : World) (event c body : value)
  (p : SendEmailParams) :
  In (SesSend p) (calls (handler cfg w event c)) ->
  normalize event = Normal body ->
  (OptGet body (js "name") = VUndefined ->
   contains (Body_Text_Data p) (js "From: undefined")) /\
  (OptGet body (js "email") = VUndefined ->
   contains (Body_Text_Data p) (js "Email: undefined")) /\
  (OptGet body (js "subject") = VUndefined ->
   contains (Body_Text_Data p) (js "Subject: undefined")) /\
  (OptGet body (js "message") = VUndefined ->
   contains (Body_Text_Data p) (js "Message: undefined")).
Proof.
  intros Hin Hn.
  destruct (email_call_inv _ _ _ _ _ Hin) as (body' & op & rb & data & res & Hn' & -> & _).
  rewrite Hn in Hn'. inversion Hn'; subst body'.
  unfold submission_params, sendEmail_params, contains. cbn [Body_Text_Data].
  unfold email_text. repeat split; intros ->.
  - exists [], (newline ++ newline ++ js "Email: " ++ ToString (OptGet body (js "email"))
                ++ newline ++ newline ++ js "Subject: "
                ++ ToString (OptGet body (js "subject")) ++ newline ++ newline
                ++ js "Message: " ++ ToString (OptGet body (js "message"))).
    reflexivity.
  - exists (js "From: " ++ ToString (OptGet body (js "name")) ++ newline ++ newline),
      (newline ++ newline ++ js "Subject: " ++ ToString (OptGet body (js "subject"))
       ++ newline ++ newline ++ js "Message: " ++ ToString (OptGet body (js "message"))).
    repeat rewrite <- app_assoc. reflexivity.
  - exists (js "From: " ++ ToString (OptGet body (js "name")) ++ newline ++ newline
            ++ js "Email: " ++ ToString (OptGet body (js "email")) ++ newline ++ newline),
      (newline ++ newline ++ js "Message: " ++ ToString (OptGet body (js "message"))).
    repeat rewrite <- app_assoc. reflexivity.
  - exists (js "From: " ++ ToString (OptGet body (js "name")) ++ newline ++ newline
            ++ js "Email: " ++ ToString (OptGet body (js "email")) ++ newline ++ newline
            ++ js "Subject: " ++ ToString (OptGet body (js "subject"))
            ++ newline ++ newline), [].
    repeat rewrite <- app_assoc. reflexivity.
Qed.

Lemma missing_fields_read_undefined_witness :
  contains
    (Body_Text_Data
       (submission_params example_cfg (VObj [(js "recaptchaToken", VStr (js "token-1"))])))
    (js "Message: undefined").
Proof.
  destruct (missing_fields_read_undefined example_cfg (world_answering assessment_passed)
              (VObj [(js "recaptchaToken", VStr (js "token-1"))]) cold_cache
              (VObj [(js "recaptchaToken", VStr (js "token-1"))])
              (submission_params example_cfg
                 (VObj [(js "recaptchaToken", VStr (js "token-1"))])))
    as (_ & _ & _ & Hmessage).
  - vm_compute. right. right. left. reflexivity.
  - reflexivity.
  - apply Hmessage. reflexivity.
Defined.

(** X17. Only a fetch that succeeds changes the cache: an invocation leaves
    [cachedApiKey] as it found it unless it called the secret store and the
    call succeeded, in which case the cache holds the [SecretString] of the
    response. *)
Theorem cache_changes_only_by_fetch (cfg : Config) (w : World) (event c : value) :
  cache (handler cfg w event c) = c \/
  exists response,
    truthy c = false /\
    In (SecretsManagerSend (RECAPTCHA_API_KEY_SECRET_NAME cfg))
       (calls (handler cfg w event c)) /\
    secretsManager_send w (RECAPTCHA_API_KEY_SECRET_NAME cfg) = Normal response /\
    cache (handler cfg w event c) = OptGet response (js "SecretString").
Proof.
  destruct (normalize event) as [body|e] eqn:Hn;
    [|left; rewrite (handler_not_normalized _ _ _ _ _ Hn); reflexivity].
  destruct (handler_cache cfg w event c body Hn) as [Hcache Hcalls].
  destruct (truthy c) eqn:Hc.
  - left. rewrite Hcache, (getRecaptchaApiKey_warm _ _ _ Hc). reflexivity.
  - assert (In (SecretsManagerSend (RECAPTCHA_API_KEY_SECRET_NAME cfg))
              (calls (handler cfg w event c))) as Hin.
    { apply secret_calls_In. rewrite Hcalls, getRecaptchaApiKey_calls, Hc.
      left. reflexivity. }
    rewrite Hcache, (getRecaptchaApiKey_cold _ _ _ Hc). cbv zeta.
    destruct (secretsManager_send w _) as [response|e] eqn:Hsend; [|left; reflexivity].
    destruct (Get response (js "SecretString")) as [secret|e] eqn:Hget; [|left; reflexivity].
    right. exists response. apply Get_Normal_inv in Hget. destruct Hget as [_ ->].
    rewrite <- Hsend. auto.
Qed.

Lemma Normal_inj (A : Type) (a b : A) : Normal a = Normal b -> a = b.
Proof.
  intros H.
  exact (f_equal (fun x => match x with Normal y => y | Throw _ => a end) H).
Qed.

(** X18. The responses: whatever the payload, the configuration and the
    answers of the collaborators, a response the handler returns is one of
    five fixed objects; nothing of the submission, of the credential or of
    the messages of the collaborators is echoed. *)
Theorem five_responses (cfg : Config) (w : World) (event c : value) (r : Response) :
  result (handler cfg w event c) = Normal r ->
  r = respond 200 success_body \/
  r = respond 400 (failed_body (js "reCAPTCHA verification failed")) \/
  r = respond 400 (failed_body (js "Submission blocked")) \/
  r = respond 500 (failed_body (js "reCAPTCHA service error")) \/
  r = respond 500 (failed_body (js "Email service error")).
Proof.
  rewrite handler_paths.
  destruct (normalize event) as [body|e]; [|discriminate].
  cbv zeta.
  walk cfg w c body; cbn [result]; intros H; apply Normal_inj in H; subst r;
    [ right; right; left
    | left
    | right; right; right; right
    | right; left
    | right; right; right; left
    | right; right; right; left
    | right; right; right; left
    | right; right; right; left ]; reflexivity.
Qed.

Lemma five_responses_witness :
  respond 400 (failed_body (js "Submission blocked")) = respond 200 success_body \/
  respond 400 (failed_body (js "Submission blocked"))
    = respond 400 (failed_body (js "reCAPTCHA verification failed")) \/
  respond 400 (failed_body (js "Submission blocked"))
    = respond 400 (failed_body (js "Submission blocked")) \/
  respond 400 (failed_body (js "Submission blocked"))
    = respond 500 (failed_body (js "reCAPTCHA service error")) \/
  respond 400 (failed_body (js "Submission blocked"))
    = respond 500 (failed_body (js "Email service error")).
Proof.
  apply (five_responses example_cfg (world_answering assessment_low_score) example_event
           cold_cache).
  vm_compute. reflexivity.
Defined.

(** X12. The text of the email does not delimit its fields: a name that
    ends with a blank line and an "Email: " line yields the text of another
    submission. *)
Theorem email_text_ambiguous (n x y s m : jsstring) :
  email_text (VStr (n ++ newline ++ newline ++ js "Email: " ++ x)) (VStr y) (VStr s) (VStr m)
  = email_text (VStr n) (VStr (x ++ newline ++ newline ++ js "Email: " ++ y))
      (VStr s) (VStr m) /\
  VStr (n ++ newline ++ newline ++ js "Email: " ++ x) <> VStr n.
Proof.
  split.
  - unfold email_text. cbn [ToString]. repeat rewrite <- app_assoc. reflexivity.
  - intros H. inversion H as [Hn]. apply (f_equal (@List.length N)) in Hn.
    rewrite !length_app in Hn. cbn [List.length newline] in Hn.
    unfold js in Hn. cbn [List.length list_ascii_of_string map] in Hn. lia.
Qed.

(** ** An unparsable threshold *)






(** ** The body of the verification request *)

Lemma wf_js (s : string) : wf_string (js s).
Proof.
  unfold js. apply Forall_forall. intros c Hc. apply in_map_iff in Hc.
  destruct Hc as [a [<- _]]. unfold wf_unit. pose proof (N_ascii_bounded a). lia.
Qed.

(** An object of strings is read back in front of any text. *)
Lemma parse_value_string_object (fields : list (jsstring * jsstring)) (f : nat)
  (tail : jsstring) :
  fresh_fields [] fields ->
  (List.length fields <= f)%nat ->
  parse_value (S (S (S f))) (JSON_stringify (string_object fields) ++ tail)
  = Some (string_object fields, tail).
Proof.
  intros Hfresh Hf. rewrite stringify_string_object.
  destruct fields as [|kv rest]; [reflexivity|].
  change ((js "{" ++ join (js ",") (map member (kv :: rest)) ++ js "}") ++ tail)
    with (123%N :: ((join (js ",") (map member (kv :: rest)) ++ [125%N]) ++ tail)).
  rewrite <- app_assoc. cbn [app].
  destruct (members_head kv rest (125%N :: tail)) as [x Hx].
  rewrite Hx. cbn [parse_value skip_ws is_json_ws N.eqb Pos.eqb orb]. rewrite <- Hx.
  rewrite (parse_members rest kv [] f tail); [reflexivity| |exact Hfresh].
  cbn [List.length] in Hf. lia.
Qed.

(** A member whose key is [k], in front of the text of its value. *)
Lemma parse_member_key (f : nat) (acc : list (jsstring * value)) (k rest : jsstring) :
  wf_string k ->
  parse_member (S f) acc (34%N :: quote_body k ++ 34%N :: 58%N :: rest) =
  match parse_value f rest with
  | Some (v, r3) =>
      match skip_ws r3 with
      | c :: r4 =>
          if (c =? 125)%N then Some (VObj (CreateDataProperty acc k v), r4)
          else if (c =? 44)%N then
            parse_member f (CreateDataProperty acc k v) (skip_ws r4)
          else None
      | [] => None
      end
  | None => None
  end.
Proof.
  intros Hk. cbn [parse_member]. rewrite (parse_quote_body k _ Hk).
  cbn [skip_ws is_json_ws N.eqb Pos.eqb orb]. reflexivity.
Qed.

Lemma stringify_string_object_length (fields : list (jsstring * jsstring)) :
  (List.length fields + 2 <= List.length (JSON_stringify (string_object fields)))%nat.
Proof.
  rewrite stringify_string_object. pose proof (members_length fields) as H.
  rewrite !length_app. change (List.length (js "{")) with 1%nat.
  change (List.length (js "}")) with 1%nat. lia.
Qed.

(** [JSON.parse] reads [{"event": o}] back when [o] is an object of strings. *)
Lemma parse_event_object (fields : list (jsstring * jsstring)) :
  fresh_fields [] fields ->
  JSON_parse (JSON_stringify (VObj [(js "event", string_object fields)]))
  = Normal (VObj [(js "event", string_object fields)]).
Proof.
  intros Hfresh.
  assert (JSON_stringify (VObj [(js "event", string_object fields)])
          = 123%N :: 34%N :: quote_body (js "event") ++ 34%N :: 58%N
              :: (JSON_stringify (string_object fields) ++ [125%N])) as Htext.
  { unfold JSON_stringify at 1. cbn [SerializeJSONProperty].
    unfold JSON_stringify, string_object. cbn [SerializeJSONProperty].
    reflexivity. }
  rewrite Htext. unfold JSON_parse.
  pose proof (stringify_string_object_length fields) as Hlen.
  pose proof (wf_js "event") as Hk.
  assert (CreateDataProperty [] (js "event") (string_object fields)
          = [(js "event", string_object fields)]) as Hcreate by reflexivity.
  remember (js "event") as k eqn:Hkdef.
  remember (JSON_stringify (string_object fields)) as inner eqn:Hinner.
  cbn [List.length]. rewrite length_app. cbn [List.length]. rewrite length_app.
  cbn [List.length].
  destruct (List.length inner) as [|[|n]] eqn:Hn; try (exfalso; lia).
  replace (List.length (quote_body k) + S (S (S (S n) + 1)))%nat
    with (S (S (S (S (List.length (quote_body k) + n + 1))))) by lia.
  cbn [parse_value skip_ws is_json_ws N.eqb Pos.eqb orb].
  rewrite parse_member_key by assumption.
  subst inner.
  rewrite (parse_value_string_object fields _ [125%N] Hfresh) by lia.
  cbn [skip_ws is_json_ws N.eqb Pos.eqb orb]. rewrite Hcreate. reflexivity.
Qed.

(** X7. The body of the verification request is the JSON text of
    [{event: {token, siteKey, expectedAction: "contact_submit"}}] with the
    token of the normalized submission: a token and a site key that are
    strings are read back from it unchanged by [JSON.parse], whatever code
    units they hold; and a submission without a token is not rejected
    locally, its request simply has no [token] member. *)
Theorem verification_request_body (cfg : Config) (w : World) (event c : value)
  (op : RequestOptions) (rb : jsstring) :
  In (HttpsRequest op rb) (calls (handler cfg w event c)) ->
  exists body,
    normalize event = Normal body /\
    rb = verify_requestBody cfg (OptGet body (js "recaptchaToken")) (js "contact_submit") /\
    (forall token siteKey,
       OptGet body (js "recaptchaToken") = VStr token ->
       RECAPTCHA_SITE_KEY cfg = VStr siteKey ->
       wf_string token -> wf_string siteKey ->
       JSON_parse rb
       = Normal (VObj [(js "event",
                        VObj [(js "token", VStr token);
                              (js "siteKey", VStr siteKey);
                              (js "expectedAction", VStr (js "contact_submit"))])])) /\
    (forall siteKey,
       OptGet body (js "recaptchaToken") = VUndefined ->
       RECAPTCHA_SITE_KEY cfg = VStr siteKey ->
       wf_string siteKey ->
       JSON_parse rb
       = Normal (VObj [(js "event",
                        VObj [(js "siteKey", VStr siteKey);
                              (js "expectedAction", VStr (js "contact_submit"))])])).
Proof.
  intros Hin.
  destruct (verify_call_inv _ _ _ _ _ _ Hin)
    as (body & apiKey & token0 & Hn & Hk & Ht & Hrb & Hop).
  apply Get_Normal_inv in Ht. destruct Ht as [_ ->].
  exists body. split; [assumption|]. split; [assumption|]. subst rb. split.
  - intros token siteKey Htoken Hsite Hwt Hws.
    unfold verify_requestBody. rewrite Htoken, Hsite.
    apply (parse_event_object
             [(js "token", token); (js "siteKey", siteKey);
              (js "expectedAction", js "contact_submit")]).
    cbn [fresh_fields]. repeat split; try reflexivity; try assumption; apply wf_js.
  - intros siteKey Htoken Hsite Hws.
    unfold verify_requestBody. rewrite Htoken, Hsite.
    change (JSON_stringify
              (VObj [(js "event",
                      VObj [(js "token", VUndefined); (js "siteKey", VStr siteKey);
                            (js "expectedAction", VStr (js "contact_submit"))])]))
      with (JSON_stringify
              (VObj [(js "event",
                      string_object [(js "siteKey", siteKey);
                                     (js "expectedAction", js "contact_submit")])])).
    apply (parse_event_object
             [(js "siteKey", siteKey); (js "expectedAction", js "contact_submit")]).
    cbn [fresh_fields]. repeat split; try reflexivity; try assumption; apply wf_js.
Qed.

Lemma verification_request_body_witness :
  JSON_parse example_requestBody
  = Normal (VObj [(js "event",
                   VObj [(js "token", VStr (js "token-1"));
                         (js "siteKey", VStr (js "site-key"));
                         (js "expectedAction", VStr (js "contact_submit"))])]).
Proof.
  destruct (verification_request_body example_cfg (world_answering assessment_passed)
              example_event cold_cache example_options example_requestBody)
    as (body & Hn & _ & Hparse & _).
  - vm_compute. right. left. reflexivity.
  - assert (body = example_submission) as ->.
    { assert (normalize example_event = Normal example_submission) as Hx
        by (vm_compute; reflexivity).
      rewrite Hx in Hn. inversion Hn. reflexivity. }
    apply Hparse; try reflexivity; apply wf_js.
Defined.

(* ================================================================= *)
(** ** The stack and the handler it deploys *)

(** X14. The stack does not configure the secret the handler asks for: it
    passes the API key itself in RECAPTCHA_API_KEY, which the handler never
    reads, and no RECAPTCHA_API_KEY_SECRET_NAME. So, unless the runtime
    defines that name, the deployed handler has sender, receiver, subject,
    project and site key as the stack gives them, its configuration does not
    depend on the API key of the stack, and with an empty cache it asks the
    secret store for the secret [undefined]. *)
Theorem deployed_configuration (runtime : process_env) (cf : ContactFormConfig) :
  runtime (js "RECAPTCHA_API_KEY_SECRET_NAME") = None ->
  RECAPTCHA_API_KEY_SECRET_NAME (load_config (deployed_env runtime cf)) = VUndefined /\
  SENDER (load_config (deployed_env runtime cf)) = VStr (senderEmail cf) /\
  RECEIVER (load_config (deployed_env runtime cf)) = VStr (receiverEmail cf) /\
  SUBJECT (load_config (deployed_env runtime cf)) = VStr (js "Contact Form Submission") /\
  RECAPTCHA_PROJECT_ID (load_config (deployed_env runtime cf))
    = VStr (recaptchaProjectId cf) /\
  RECAPTCHA_SITE_KEY (load_config (deployed_env runtime cf)) = VStr (recaptchaSiteKey cf) /\
  (forall key,
     load_config
       (deployed_env runtime
          {| senderEmail := senderEmail cf; receiverEmail := receiverEmail cf;
             recaptchaApiKey := key; recaptchaProjectId := recaptchaProjectId cf;
             recaptchaSiteKey := recaptchaSiteKey cf;
             recaptchaScoreThreshold := recaptchaScoreThreshold cf |})
     = load_config (deployed_env runtime cf)) /\
  (forall w event body, normalize event = Normal body ->
     exists rest,
       calls (handler (load_config (deployed_env runtime cf)) w event cold_cache)
       = SecretsManagerSend VUndefined :: rest).
Proof.
  intros Hruntime.
  assert (RECAPTCHA_API_KEY_SECRET_NAME (load_config (deployed_env runtime cf)) = VUndefined)
    as Hname.
  { cbn [load_config RECAPTCHA_API_KEY_SECRET_NAME]. unfold env_get, deployed_env.
    change (env_lookup (js "RECAPTCHA_API_KEY_SECRET_NAME") (function_environment cf))
      with (@None jsstring).
    rewrite Hruntime. reflexivity. }
  split; [exact Hname|].
  split; [reflexivity|]. split; [reflexivity|].
  split.
  { cbn [load_config SUBJECT]. unfold env_get, deployed_env.
    change (env_lookup (js "EMAIL_SUBJECT") (function_environment cf))
      with (Some (js "Contact Form Submission")).
    reflexivity. }
  split; [reflexivity|]. split; [reflexivity|].
  split.
  - intros key. reflexivity.
  - intros w event body Hn. rewrite <- Hname.
    apply (cold_invocation_fetches _ w event cold_cache body); [reflexivity|assumption].
Qed.

Lemma deployed_configuration_witness :
  RECAPTCHA_API_KEY_SECRET_NAME
    (load_config (deployed_env lambda_runtime_env example_contactForm)) = VUndefined /\
  exists rest,
    calls (handler (load_config (deployed_env lambda_runtime_env example_contactForm))
             (world_answering assessment_passed) example_event cold_cache)
    = SecretsManagerSend VUndefined :: rest.
Proof.
  destruct (deployed_configuration lambda_runtime_env example_contactForm)
    as (Hname & _ & _ & _ & _ & _ & _ & Hfetch).
  - reflexivity.
  - split; [exact Hname|].
    apply (Hfetch (world_answering assessment_passed) example_event example_submission).
    vm_compute. reflexivity.
Defined.

(** X15. A threshold of 0, or none, in the properties of the stack reaches
    the handler as 0.5: [recaptchaScoreThreshold || 0.5] takes 0 for absent,
    so the score check cannot be switched off from the stack. *)
Theorem zero_threshold_deploys_default (runtime : process_env) (cf : ContactFormConfig) :
  truthy (optional_number (recaptchaScoreThreshold cf)) = false ->
  env_lookup (js "RECAPTCHA_SCORE_THRESHOLD") (function_environment cf) = Some (js "0.5") /\
  RECAPTCHA_SCORE_THRESHOLD (load_config (deployed_env runtime cf)) = 0.5%float.
Proof.
  intros Hfalsy.
  assert (env_lookup (js "RECAPTCHA_SCORE_THRESHOLD") (function_environment cf)
          = Some (js "0.5")) as Henv.
  { change (env_lookup (js "RECAPTCHA_SCORE_THRESHOLD") (function_environment cf))
      with (Some (ToString
                    (js_or (optional_number (recaptchaScoreThreshold cf))
                       (VNum 0.5%float)))).
    unfold js_or. rewrite Hfalsy. vm_compute. reflexivity. }
  split; [exact Henv|].
  cbn [load_config RECAPTCHA_SCORE_THRESHOLD]. unfold env_get, deployed_env.
  rewrite Henv. vm_compute. reflexivity.
Qed.

Lemma zero_threshold_deploys_default_witness :
  RECAPTCHA_SCORE_THRESHOLD
    (load_config (deployed_env lambda_runtime_env example_contactForm)) = 0.5%float.
Proof.
  apply (zero_threshold_deploys_default lambda_runtime_env example_contactForm).
  reflexivity.
Defined.

Lemma alias_records_names (names : list jsstring) (index : Z) :
  map recordName (alias_records_from index names) = names.
Proof.
  revert index. induction names as [|n rest IH]; intros index; cbn; [reflexivity|].
  rewrite IH. reflexivity.
Qed.

(** X16. Every name the distribution serves is on the certificate and has its
    alias record: the names are the domain followed by one name
    [sub.domain] per subdomain ([www] when none is given); the certificate
    is issued for the domain with the other names as alternative names;
    there is one alias record per name, in the same order; and with the
    default subdomains the origins the contact form allows are these names
    under [https://]. *)
Theorem served_names_covered (domain : jsstring) (subdomains : option (list jsstring)) :
  distribution_domainNames domain subdomains
  = certificate_domainName (certificate_props domain subdomains)
    :: subjectAlternativeNames (certificate_props domain subdomains) /\
  map recordName (alias_records domain subdomains)
  = distribution_domainNames domain subdomains /\
  List.length (distribution_domainNames domain subdomains)
  = S (List.length (default_subdomains subdomains)) /\
  (forall sub, In sub (default_subdomains subdomains) ->
     In (sub ++ js "." ++ domain) (distribution_domainNames domain subdomains)) /\
  map (fun n => js "https://" ++ n) (distribution_domainNames domain None)
  = allowedOrigins domain.
Proof.
  unfold distribution_domainNames, alias_records, certificate_props, domainNames.
  cbn [certificate_domainName subjectAlternativeNames slice_1].
  split; [reflexivity|]. split; [apply alias_records_names|].
  split; [cbn [List.length]; rewrite length_map; reflexivity|].
  split.
  - intros sub Hin. right. apply in_map_iff. exists sub. auto.
  - reflexivity.
Qed.
